(** * Tmux-Sessionizer: the entry-resolution engine of [cmd/root.go]

    A shallow embedding of [buildDirectoryEntries], [processScanDir],
    [createDisplayName], [shouldSkipEntry] and of the selection logic of
    [rootCmd.RunE], with the properties the specification states about them.

    Go strings are [string] (a sequence of bytes), Go maps are [gmap],
    [map[string]struct{}] is a [gset], Go [int] is [Z] (no arithmetic is
    performed on depths, so no wrap-around arises).  A Go [error] result is
    the left summand of a sum type. *)

From Stdlib Require Import ZArith Ascii.
From stdpp Require Import base gmap strings list sorting.

Local Open Scope Z_scope.

(** ** [path/filepath] (Go standard library, Unix flavour)

    [Base] and [Dir] are lexical; the separator is [/] and there is no volume
    name. *)
Module filepath.

Definition IsPathSeparator (c : ascii) : bool := Ascii.eqb c "/".

Fixpoint stripSeps (l : list ascii) : list ascii :=
  match l with
  | c :: l' => if IsPathSeparator c then stripSeps l' else l
  | [] => []
  end.

Fixpoint lastElem (l : list ascii) : list ascii :=
  match l with
  | c :: l' => if IsPathSeparator c then [] else c :: lastElem l'
  | [] => []
  end.

Fixpoint dropElem (l : list ascii) : list ascii :=
  match l with
  | c :: l' => if IsPathSeparator c then l else dropElem l'
  | [] => []
  end.

(** [Base]: strip trailing slashes, keep what follows the last slash;
    the empty path gives ".", a path of slashes only gives "/". *)
Definition Base (path : string) : string :=
  if decide (path = "") then "."
  else
    let stripped := stripSeps (reverse (String.list_ascii_of_string path)) in
    let elem := String.string_of_list_ascii (reverse (lastElem stripped)) in
    if decide (elem = "") then "/" else elem.

(** Split at every separator. *)
Fixpoint splitSep (cur : list ascii) (l : list ascii) : list string :=
  match l with
  | [] => [String.string_of_list_ascii (reverse cur)]
  | c :: l' =>
      if IsPathSeparator c
      then String.string_of_list_ascii (reverse cur) :: splitSep [] l'
      else splitSep (c :: cur) l'
  end.

(** One step of [Clean] over the stack of kept elements (top first). *)
Definition cleanStep (rooted : bool) (stack : list string) (elem : string)
  : list string :=
  if decide (elem = "") then stack
  else if decide (elem = ".") then stack
  else if decide (elem = "..") then
    match stack with
    | top :: rest =>
        if decide (top = "..") then elem :: stack else rest
    | [] => if rooted then [] else [elem]
    end
  else elem :: stack.

Fixpoint joinSep (l : list string) : string :=
  match l with
  | [] => ""
  | [x] => x
  | x :: l' => x +:+ "/" +:+ joinSep l'
  end.

Definition Clean (path : string) : string :=
  if decide (path = "") then "."
  else
    let chars := String.list_ascii_of_string path in
    let rooted := match chars with c :: _ => IsPathSeparator c | [] => false end in
    let kept := reverse (foldl (cleanStep rooted) [] (splitSep [] chars)) in
    let out := (if rooted then "/" else "") +:+ joinSep kept in
    if decide (out = "") then "." else out.

(** [Dir]: everything up to and including the last slash, cleaned. *)
Definition Dir (path : string) : string :=
  Clean (String.string_of_list_ascii
           (reverse (dropElem (reverse (String.list_ascii_of_string path))))).

End filepath.

(** ** [internal/models] *)
Module ScanDir.
(** [Depth] is the optional per-source depth of the configuration. *)
Record t := { Path : string; Depth : option Z; Alias : string }.
End ScanDir.

Module PathInfo.
Record t := { Path : string; Prefix : string }.

#[global] Instance eq_dec : EqDecision t.
Proof. solve_decision. Defined.
End PathInfo.

Module Session.
(** The layout is opaque to the code modelled here. *)
Record t := { Name : string; Path : string }.
End Session.

Module Config.
Record t := {
  ScanDirs : list ScanDir.t;
  EntryDirs : list string;
  IgnoreDirs : list string;
  DefaultDepth : Z;
  TmuxSessionPrefix : string
}.
End Config.

(** Modelled from the spec: [ScanDir.GetDepth] of [internal/models] is not
    among the sources.  The effective depth is resolved by precedence:
    explicit per-invocation override, then per-source configured depth, then
    global default depth.  The override is the [--depth] flag, whose value
    when absent is the flag's default [0] ([init] in [cmd/root.go]). *)
Definition GetDepth (s : ScanDir.t) (flagDepth defaultDepth : Z) : Z :=
  if decide (flagDepth = 0)
  then match ScanDir.Depth s with
       | Some d => d
       | None => defaultDepth
       end
  else flagDepth.

(** ** The collection pass of [buildDirectoryEntries] *)

(** The errors that arise: one built by this package with [fmt.Errorf], or
    one of a collaborator, kept as its text. *)
Inductive error :=
| errorString (text : string)
| unknownCommand (arg subcommand : string)
| nameMustMatch (choiceStr : string)
| failedToSwitch (text : string).

(** The two variables [addPath] appends to. *)
Record collected := {
  allPaths : list PathInfo.t;
  pathsByBaseName : gmap string (list PathInfo.t)
}.

Definition noPaths : collected :=
  {| allPaths := []; pathsByBaseName := ∅ |}.

(** A computation over the collected paths that may return a Go [error]. *)
Definition M (A : Type) : Type := collected → error + (A * collected).

Definition ret {A} (a : A) : M A := λ st, inr (a, st).

Definition bind {A B} (m : M A) (k : A → M B) : M B :=
  λ st, match m st with
        | inl e => inl e
        | inr (a, st') => k a st'
        end.

Notation "m ;;; k" := (bind m (λ _, k))
  (at level 100, k at level 200, right associativity).

(** [for _, x := range l { if err := f(x); err != nil { return err } }] *)
Fixpoint forEach {A} (f : A → M unit) (l : list A) : M unit :=
  match l with
  | [] => ret tt
  | x :: l' => f x ;;; forEach f l'
  end.

(** [m] returns no error and keeps the invariant [I]. *)
Definition preserves (I : collected → Prop) (m : M unit) : Prop :=
  ∀ st, I st → ∃ st', m st = inr (tt, st') ∧ I st'.

Section engine.

(** The collaborators of [internal/utility]: [ResolvePath] fails with
    [None]; [GetSubDirs maxDepth root] fails with [None]. *)
Variable ResolvePath : string → option string.
Variable GetSubDirs : Z → string → option (list string).

Variable cfg : Config.t.

(** [map[string]bool] indexed at a missing key yields [false]. *)
Definition index (m : gmap string bool) (k : string) : bool :=
  default false (m !! k).

(** The loop over [cfg.IgnoreDirs]. *)
Definition buildIgnoreSet : gset string :=
  foldl (λ ignoreSet dir,
           match ResolvePath dir with
           | Some resolved => {[resolved]} ∪ ignoreSet
           | None => ignoreSet
           end) ∅ (Config.IgnoreDirs cfg).

Definition addPath (ignoreSet : gset string) (currentSession : string)
    (path prefix : string) : M unit :=
  λ st,
    match ResolvePath path with
    | None => inr (tt, st)
    | Some resolved =>
        if decide (resolved ∈ ignoreSet) then inr (tt, st)
        else
          let name := filepath.Base resolved in
          if decide (name = currentSession) then inr (tt, st)
          else
            let info := {| PathInfo.Path := resolved; PathInfo.Prefix := prefix |} in
            inr (tt,
                 {| allPaths := allPaths st ++ [info];
                    pathsByBaseName :=
                      <[name := default [] (pathsByBaseName st !! name) ++ [info]]>
                        (pathsByBaseName st) |})
    end.

Definition processScanDir (scanDir : ScanDir.t) (flagDepth : Z)
    (prefix : string) (addEntry : string → string → M unit) : M unit :=
  let defaultDepth := Config.DefaultDepth cfg in
  let effectiveDepth := GetDepth scanDir flagDepth defaultDepth in
  match ResolvePath (ScanDir.Path scanDir) with
  | None => ret tt
  | Some resolved =>
      match GetSubDirs effectiveDepth resolved with
      | None => ret tt
      | Some subDirs => forEach (λ subDir, addEntry subDir prefix) subDirs
      end
  end.

Definition createDisplayName (info : PathInfo.t)
    (pathsByBaseName : gmap string (list PathInfo.t)) : string :=
  let name := filepath.Base (PathInfo.Path info) in
  let pathsWithSameName := default [] (pathsByBaseName !! name) in
  let displayName :=
    if decide (1 < length pathsWithSameName)%nat
    then
      let parent := filepath.Base (filepath.Dir (PathInfo.Path info)) in
      name +:+ " (" +:+ parent +:+ ")"
    else name in
  if decide (PathInfo.Prefix info ≠ "")
  then PathInfo.Prefix info +:+ "/" +:+ displayName
  else displayName.

Definition shouldSkipEntry (displayName currentSession : string)
    (existingSessions : gmap string bool) : bool :=
  bool_decide (displayName = currentSession) || index existingSessions displayName.

(** The collection of all paths: scan directories, then entry directories. *)
Definition collectPaths (ignoreSet : gset string) (currentSession : string)
    (flagDepth : Z) : M unit :=
  let addPath := addPath ignoreSet currentSession in
  forEach (λ scanDir,
             processScanDir scanDir flagDepth (ScanDir.Alias scanDir) addPath)
          (Config.ScanDirs cfg) ;;;
  forEach (λ entryDir, addPath entryDir "") (Config.EntryDirs cfg).

(** The loop that names every collected path. *)
Definition nameEntries (currentSession : string)
    (existingSessions : gmap string bool) (st : collected)
    (entries : gmap string string) : gmap string string :=
  foldl (λ entries info,
           let displayName := createDisplayName info (pathsByBaseName st) in
           if shouldSkipEntry displayName currentSession existingSessions
           then entries
           else <[displayName := PathInfo.Path info]> entries)
        entries (allPaths st).

(** The loop over the existing sessions, visited in the order [visit]. *)
Definition addSessions (currentSession : string) (visit : list string)
    (entries : gmap string string) : gmap string string :=
  foldl (λ entries sessionName,
           if decide (sessionName = currentSession) then entries
           else <[Config.TmuxSessionPrefix cfg +:+ sessionName := sessionName]> entries)
        entries visit.

(** [buildDirectoryEntries].  [existingSessions] and [currentSession] are
    what [tmux.GetTmuxSessionSet] and [tmux.GetCurrentTmuxSession] return.
    Go leaves the order in which [range] visits a map unspecified: [visit]
    is the order in which the keys of [existingSessions] are visited. *)
Definition buildDirectoryEntries (existingSessions : gmap string bool)
    (visit : list string) (currentSession : string) (flagDepth : Z)
  : error + gmap string string :=
  let ignoreSet := buildIgnoreSet in
  match collectPaths ignoreSet currentSession flagDepth noPaths with
  | inl err => inl err
  | inr (_, st) =>
      let entries := nameEntries currentSession existingSessions st ∅ in
      inr (addSessions currentSession visit entries)
  end.

(** Every recorded path was admitted: it resolved from some path, is not
    ignored and its base name is not the current session. *)
Definition admitted (ignoreSet : gset string) (currentSession : string)
    (info : PathInfo.t) : Prop :=
  (PathInfo.Path info ∉ ignoreSet)
  ∧ filepath.Base (PathInfo.Path info) ≠ currentSession
  ∧ ∃ path, ResolvePath path = Some (PathInfo.Path info).

(** The index holds, under each base name, the recorded paths of that base
    name, in the order of recording. *)
Definition indexed (st : collected) : Prop :=
  ∀ name, default [] (pathsByBaseName st !! name)
          = filter (λ info, filepath.Base (PathInfo.Path info) = name) (allPaths st).

Definition wellCollected (ignoreSet : gset string) (currentSession : string)
    (st : collected) : Prop :=
  Forall (admitted ignoreSet currentSession) (allPaths st) ∧ indexed st.

End engine.

(** The configuration [cfg] with other scan directories. *)
Definition withScanDirs (cfg : Config.t) (scanDirs : list ScanDir.t) : Config.t :=
  {| Config.ScanDirs := scanDirs;
     Config.EntryDirs := Config.EntryDirs cfg;
     Config.IgnoreDirs := Config.IgnoreDirs cfg;
     Config.DefaultDepth := Config.DefaultDepth cfg;
     Config.TmuxSessionPrefix := Config.TmuxSessionPrefix cfg |}.

(** [visit] enumerates the keys of the map [m], each once. *)
Definition rangeOrder {V} (m : gmap string V) (visit : list string) : Prop :=
  visit ≡ₚ (map_to_list m).*1.

(** ** Presentation order ([rootCmd.RunE], the comparison given to
    [slices.SortFunc]) *)

(** [strings.HasPrefix s prefix]. *)
Definition HasPrefix (s prefix : string) : bool := String.prefix prefix s.

(** [strings.Compare]: bytewise lexicographic comparison. *)
Definition Compare (a b : string) : Z :=
  match String.compare a b with
  | Lt => -1
  | Eq => 0
  | Gt => 1
  end.

(** [strings.CutPrefix s prefix]: the rest of [s] and whether [prefix] was
    found. *)
Definition CutPrefix (s prefix : string) : string * bool :=
  if HasPrefix s prefix
  then (String.substring (String.length prefix)
          (String.length s - String.length prefix) s, true)
  else (s, false).

Definition namesCmp (tmuxSessionPrefix a b : string) : Z :=
  let isTmuxA := HasPrefix a tmuxSessionPrefix in
  let isTmuxB := HasPrefix b tmuxSessionPrefix in
  if isTmuxA && negb isTmuxB then -1
  else if negb isTmuxA && isTmuxB then 1
  else Compare a b.

(** [slices.SortFunc names cmp] sorts in ascending order as determined by
    [cmp]; modelled by merging. *)
Definition cmpLe {A} (cmp : A → A → Z) (a b : A) : Prop := cmp a b ≤ 0.

#[global] Instance cmpLe_dec {A} (cmp : A → A → Z) : RelDecision (cmpLe cmp).
Proof. intros a b. unfold cmpLe. apply _. Defined.

Definition SortFunc {A} (cmp : A → A → Z) (l : list A) : list A :=
  merge_sort (cmpLe cmp) l.

Definition sortNames (tmuxSessionPrefix : string) (names : list string)
  : list string :=
  SortFunc (namesCmp tmuxSessionPrefix) names.

(** The order [namesCmp] induces. *)
Definition namesLe (tmuxSessionPrefix : string) : relation string :=
  cmpLe (namesCmp tmuxSessionPrefix).

(** ** [rootCmd]: [PreRunE] and [RunE] *)

(** [Exit]: [cobra.CheckErr] met an error and ended the process.
    [Return launched err]: the function returned [err], after handing
    [launched] to [tmux.CreateAndSwitchSession] if it is [Some]. *)
Inductive outcome :=
| Exit (err : error)
| Return (launched : option Session.t) (err : option error).

Definition PreRunE (args : list string) : option error :=
  match args with
  | [arg] =>
      if decide (arg = "init") then Some (unknownCommand arg "init")
      else if decide (arg = "edit") then Some (unknownCommand arg "edit")
      else None
  | _ => None
  end.

Section command.

Variable ResolvePath : string → option string.
Variable GetSubDirs : Z → string → option (list string).
Variable cfg : Config.t.

(** [fzf.SelectWithFzf] returns a choice and an error, here the error's
    text; [tmux.CreateAndSwitchSession] returns an error. *)
Variable SelectWithFzf : list string → string * option string.
Variable CreateAndSwitchSession : Session.t → option string.
(** The order in which [range entries] visits the keys. *)
Variable rangeKeys : gmap string string → list string.

Definition launch (sessionName selectedPath : string) : outcome :=
  let session := {| Session.Name := sessionName; Session.Path := selectedPath |} in
  match CreateAndSwitchSession session with
  | Some err => Return (Some session) (Some (failedToSwitch err))
  | None => Return (Some session) None
  end.

(** The part of [RunE] from [strings.CutPrefix] on. *)
Definition resolveChoice (entries : gmap string string) (args : list string)
    (choiceStr : string) : outcome :=
  let sessionName := (CutPrefix choiceStr (Config.TmuxSessionPrefix cfg)).1 in
  match entries !! choiceStr with
  | None =>
      if decide (length args = 0%nat)
      then Return None (Some (nameMustMatch choiceStr))
      else launch sessionName ""
  | Some selectedPath => launch sessionName selectedPath
  end.

Definition RunE (existingSessions : gmap string bool) (visit : list string)
    (currentSession : string) (flagDepth : Z) (args : list string) : outcome :=
  match buildDirectoryEntries ResolvePath GetSubDirs cfg
          existingSessions visit currentSession flagDepth with
  | inl err => Exit err
  | inr entries =>
      let choiceStr := match args with [a] => a | _ => "" end in
      if decide (choiceStr = "") then
        let names := sortNames (Config.TmuxSessionPrefix cfg) (rangeKeys entries) in
        match SelectWithFzf names with
        | (_, Some err) =>
            if decide (err = "user cancelled") then Return None None
            else Exit (errorString err)
        | (choiceStr, None) =>
            if decide (choiceStr = "") then Return None None
            else resolveChoice entries args choiceStr
        end
      else resolveChoice entries args choiceStr
  end.

(** The command as cobra runs it once the checks of [PersistentPreRunE]
    have passed: [PreRunE], then [RunE] unless [PreRunE] returned an
    error. *)
Definition run (existingSessions : gmap string bool) (visit : list string)
    (currentSession : string) (flagDepth : Z) (args : list string) : outcome :=
  match PreRunE args with
  | Some err => Return None (Some err)
  | None => RunE existingSessions visit currentSession flagDepth args
  end.

End command.

(** ** Concrete environments *)

(** A file system in which exactly the paths [dirs] resolve, to themselves. *)
Definition resolveAmong (dirs : list string) (path : string) : option string :=
  if decide (path ∈ dirs) then Some path else None.

(** A scanner that answers from a table of roots, whatever the depth. *)
Definition subDirsFrom (table : list (string * list string))
  : Z → string → option (list string) :=
  λ _ root, (list_to_map table : gmap string (list string)) !! root.


Definition sessionSet (names : list string) : gmap string bool :=
  list_to_map ((λ n, (n, true)) <$> names).

(** A configuration with default depth 0 and session prefix TMUX/. *)
Definition mkCfg (scanDirs : list ScanDir.t) (entryDirs ignoreDirs : list string)
  : Config.t :=
  {| Config.ScanDirs := scanDirs;
     Config.EntryDirs := entryDirs;
     Config.IgnoreDirs := ignoreDirs;
     Config.DefaultDepth := 0;
     Config.TmuxSessionPrefix := "TMUX/" |}.

Definition scanRoot (path : string) : ScanDir.t :=
  {| ScanDir.Path := path; ScanDir.Depth := None; ScanDir.Alias := "" |}.

Definition plain (path : string) : PathInfo.t :=
  {| PathInfo.Path := path; PathInfo.Prefix := "" |}.

(** The display names of all collected paths, in the order of collection. *)
Definition displayNames (st : collected) : list string :=
  (λ info, createDisplayName info (pathsByBaseName st)) <$> allPaths st.

(** The keys of a table in the order of [map_to_list]. *)
Definition keysOf (entries : gmap string string) : list string :=
  (map_to_list entries).*1.

(** ** What the collection pass records, as lists *)

Section recorded.

Variable ResolvePath : string → option string.
Variable GetSubDirs : Z → string → option (list string).
Variable cfg : Config.t.

(** The candidate that a call of [addPath] appends, if it appends one. *)
Definition admission (ignoreSet : gset string) (currentSession : string)
    (path prefix : string) : option PathInfo.t :=
  match ResolvePath path with
  | None => None
  | Some resolved =>
      if decide (resolved ∈ ignoreSet) then None
      else if decide (filepath.Base resolved = currentSession) then None
      else Some {| PathInfo.Path := resolved; PathInfo.Prefix := prefix |}
  end.

(** The candidates that one scan directory contributes. *)
Definition scanned (ignoreSet : gset string) (currentSession : string)
    (flagDepth : Z) (scanDir : ScanDir.t) : list PathInfo.t :=
  match ResolvePath (ScanDir.Path scanDir) with
  | None => []
  | Some resolved =>
      match GetSubDirs (GetDepth scanDir flagDepth (Config.DefaultDepth cfg))
              resolved with
      | None => []
      | Some subDirs =>
          omap (λ subDir, admission ignoreSet currentSession subDir
                            (ScanDir.Alias scanDir)) subDirs
      end
  end.

(** Scan directories in their order, then entry directories in theirs. *)
Definition candidates (ignoreSet : gset string) (currentSession : string)
    (flagDepth : Z) : list PathInfo.t :=
  (Config.ScanDirs cfg ≫= scanned ignoreSet currentSession flagDepth)
  ++ omap (λ entryDir, admission ignoreSet currentSession entryDir "")
          (Config.EntryDirs cfg).

End recorded.

(** [m] returns no error and appends exactly [added] to the list of paths. *)
Definition appends (added : list PathInfo.t) (m : M unit) : Prop :=
  ∀ st, ∃ st', m st = inr (tt, st') ∧ allPaths st' = allPaths st ++ added.

(** The configuration [cfg] with other entry directories. *)
Definition withEntryDirs (cfg : Config.t) (entryDirs : list string) : Config.t :=
  {| Config.ScanDirs := Config.ScanDirs cfg;
     Config.EntryDirs := entryDirs;
     Config.IgnoreDirs := Config.IgnoreDirs cfg;
     Config.DefaultDepth := Config.DefaultDepth cfg;
     Config.TmuxSessionPrefix := Config.TmuxSessionPrefix cfg |}.

(** ** [rootCmd.PersistentPreRunE] and the checks it runs *)

(** A [cobra.Command], as far as [isConfigCommand] looks at it: its name and
    its parent. *)
Module Command.
(** [root]: a command without parent; [sub]: a command with its parent. *)
Inductive t :=
| root (name : string)
| sub (name : string) (parent : t).

Definition Name (c : t) : string :=
  match c with root name | sub name _ => name end.

Definition Parent (c : t) : option t :=
  match c with root _ => None | sub _ parent => Some parent end.
End Command.

(** The fields of [models.Config] that the checks read beside those of
    [Config.t].  A window is kept as its name: only the number of windows is
    looked at. *)
Module FallbackSession.
Record t := { Name : string; Path : string; Windows : list string }.
End FallbackSession.

Module Settings.
Record t := {
  Base : Config.t;
  Editor : string;
  Fallback : FallbackSession.t;
  SessionLayoutWindows : list string
}.
End Settings.

(** [for c := cmd; c != nil; c = c.Parent()] *)
Fixpoint isConfigCommand (cmd : Command.t) : bool :=
  if decide (Command.Name cmd = "config") then true
  else match cmd with
       | Command.root _ => false
       | Command.sub _ parent => isConfigCommand parent
       end.

(** The names of a command and of its ancestors, nearest first. *)
Fixpoint lineage (cmd : Command.t) : list string :=
  Command.Name cmd :: match cmd with
                      | Command.root _ => []
                      | Command.sub _ parent => lineage parent
                      end.

(** [strings.Join] *)
Fixpoint Join (elems : list string) (sep : string) : string :=
  match elems with
  | [] => ""
  | [x] => x
  | x :: rest => x +:+ sep +:+ Join rest sep
  end.

Definition newline : string := String (ascii_of_nat 10) "".

Section checks.

(** [exec.LookPath] fails with [None]; [viper.ConfigFileUsed] is the empty
    string when no configuration file was read. *)
Variable LookPath : string → option string.
Variable ConfigFileUsed : string.
Variable settings : Settings.t.

Definition verifyExternalUtils : option error :=
  let missing := [] in
  let missing := match LookPath "tmux" with
                 | Some _ => missing
                 | None => missing ++ ["tmux"]
                 end in
  let missing := match LookPath "fzf" with
                 | Some _ => missing
                 | None => missing ++ ["fzf"]
                 end in
  if decide (0 < length missing)%nat
  then Some (errorString ("missing required tools: " +:+ Join missing ", "))
  else None.

Definition validateConfig : option error :=
  if decide (ConfigFileUsed = "") then
    Some (errorString
            ("no config file found" +:+ newline
             +:+ "Run 'tms config init' to create one, or use --config to specify a path"
             +:+ newline))
  else if decide (length (Config.ScanDirs (Settings.Base settings)) = 0%nat
                  ∧ length (Config.EntryDirs (Settings.Base settings)) = 0%nat) then
    Some (errorString "no directories configured for scanning")
  else if decide (length (Settings.SessionLayoutWindows settings) = 0%nat) then
    Some (errorString "session_layout must have at least one window")
  else None.

(** The lines [warnOnConfigIssues] writes to the standard error stream. *)
Definition warnOnConfigIssues : list string :=
  (if decide (Settings.Editor settings = "")
   then ["Warning: editor not set, defaulting to 'vi'"] else [])
  ++ (if decide (FallbackSession.Name (Settings.Fallback settings) = "")
      then ["fallback_session.name is missing, defaulting to 'Default'"] else [])
  ++ (if decide (FallbackSession.Path (Settings.Fallback settings) = "")
      then ["fallback_session.path is missing, defaulting to '~/'"] else [])
  ++ (if decide (length (FallbackSession.Windows (Settings.Fallback settings)) = 0%nat)
      then ["fallback_session.layout.windows is empty, using default layout"] else []).

(** [PersistentPreRunE]: the lines written to the standard error stream and
    the error returned. *)
Definition PersistentPreRunE (cmd : Command.t) : list string * option error :=
  if isConfigCommand cmd then ([], None)
  else
    match verifyExternalUtils with
    | Some err => ([], Some err)
    | None =>
        match validateConfig with
        | Some err => ([], Some err)
        | None => (warnOnConfigIssues, None)
        end
    end.

End checks.

(** ** Facts about [path/filepath] *)

Example Base_ex1 : filepath.Base "/home/u/proj" = "proj".
Proof. reflexivity. Qed.
Example Base_ex2 : filepath.Base "/home/u/proj//" = "proj".
Proof. reflexivity. Qed.
Example Base_ex3 : filepath.Base "///" = "/".
Proof. reflexivity. Qed.
Example Base_ex4 : filepath.Base "" = ".".
Proof. reflexivity. Qed.
Example Dir_ex1 : filepath.Dir "/home/u/proj" = "/home/u".
Proof. reflexivity. Qed.
Example Dir_ex2 : filepath.Dir "/proj" = "/".
Proof. reflexivity. Qed.
Example Dir_ex3 : filepath.Dir "proj" = ".".
Proof. reflexivity. Qed.
Example Dir_ex4 : filepath.Dir "/a/../b/./c" = "/b".
Proof. reflexivity. Qed.
Example Dir_ex5 : filepath.Dir "a/../../c" = "..".
Proof. reflexivity. Qed.

(** ** Facts about the collection pass *)

Lemma preserves_ret I : preserves I (ret tt).
Proof. intros st HI. exists st. done. Qed.

Lemma preserves_bind I (m k : M unit) :
  preserves I m → preserves I k → preserves I (m ;;; k).
Proof.
  intros Hm Hk st HI. unfold bind.
  destruct (Hm st HI) as (st1 & -> & HI1). by apply Hk.
Qed.

Lemma preserves_forEach {A} I (f : A → M unit) (l : list A) :
  (∀ x, x ∈ l → preserves I (f x)) → preserves I (forEach f l).
Proof.
  induction l as [|x l IH]; intros Hf; simpl.
  - apply preserves_ret.
  - apply preserves_bind.
    + apply Hf. by left.
    + apply IH. intros y Hy. apply Hf. by right.
Qed.

Lemma forEach_app {A} (f : A → M unit) (l1 l2 : list A) st :
  forEach f (l1 ++ l2) st = (forEach f l1 ;;; forEach f l2) st.
Proof.
  revert st. induction l1 as [|x l1 IH]; intros st; simpl.
  - reflexivity.
  - unfold bind in *. destruct (f x st) as [e|[[] st1]]; [done|].
    apply IH.
Qed.

Lemma forEach_skip {A} (f : A → M unit) (l1 l2 : list A) x st :
  (∀ st', f x st' = inr (tt, st')) →
  forEach f (l1 ++ x :: l2) st = forEach f (l1 ++ l2) st.
Proof.
  intros Hx. rewrite !forEach_app. unfold bind.
  destruct (forEach f l1 st) as [e|[[] st1]]; [done|].
  simpl. unfold bind. by rewrite Hx.
Qed.

Lemma length_append (a b : string) :
  String.length (a +:+ b) = (String.length a + String.length b)%nat.
Proof. induction a as [|c a IH]; simpl; [done|]. by rewrite IH. Qed.

(** Two positions of a list that satisfy [P] leave at least two elements in
    the filtered list. *)
Lemma filter_two {A} (P : A → Prop) `{∀ x, Decision (P x)} (l : list A) i j a b :
  (i < j)%nat → l !! i = Some a → l !! j = Some b → P a → P b →
  (1 < length (filter P l))%nat.
Proof.
  intros Hij Hi Hj Ha Hb.
  rewrite <-(take_drop_middle l i a Hi).
  rewrite filter_app, filter_cons_True, length_app by done. simpl.
  assert (b ∈ drop (S i) l) as Hin.
  { apply list_elem_of_lookup. exists (j - S i)%nat.
    rewrite lookup_drop. by replace (S i + (j - S i))%nat with j by lia. }
  assert (b ∈ filter P (drop (S i) l)) as Hin' by (by apply list_elem_of_filter).
  destruct (filter P (drop (S i) l)); [by apply elem_of_nil in Hin'|].
  simpl. lia.
Qed.

(** When two recorded candidates share a base name, the name of each,
    before any prefix, is the base name followed by the base name of the
    parent directory in parentheses. *)
Lemma shared_base_name_is_qualified st i j a b :
  indexed st → i ≠ j →
  allPaths st !! i = Some a → allPaths st !! j = Some b →
  filepath.Base (PathInfo.Path a) = filepath.Base (PathInfo.Path b) →
  createDisplayName (plain (PathInfo.Path a)) (pathsByBaseName st)
  = filepath.Base (PathInfo.Path a) +:+ " ("
    +:+ filepath.Base (filepath.Dir (PathInfo.Path a)) +:+ ")".
Proof.
  intros Hidx Hij Hi Hj Hbase. unfold createDisplayName. simpl.
  rewrite Hidx. rewrite decide_True; [done|].
  destruct (decide (i < j)%nat).
  - by eapply (filter_two _ _ i j a b).
  - eapply (filter_two _ _ j i b a); [lia|done..].
Qed.

Section engine_facts.

Variable ResolvePath : string → option string.
Variable GetSubDirs : Z → string → option (list string).
Variable cfg : Config.t.

#[local] Abbreviation addPath' := (addPath ResolvePath).
#[local] Abbreviation processScanDir' := (processScanDir ResolvePath GetSubDirs cfg).
#[local] Abbreviation collectPaths' := (collectPaths ResolvePath GetSubDirs cfg).
#[local] Abbreviation buildIgnoreSet' := (buildIgnoreSet ResolvePath cfg).
#[local] Abbreviation addSessions' := (addSessions cfg).
#[local] Abbreviation wellCollected' := (wellCollected ResolvePath).
#[local] Abbreviation buildDirectoryEntries' :=
  (buildDirectoryEntries ResolvePath GetSubDirs cfg).

Lemma wellCollected_noPaths ign cur : wellCollected' ign cur noPaths.
Proof. split; [constructor|]. intros name. simpl. by rewrite lookup_empty. Qed.

Lemma addPath_preserves ign cur path prefix :
  preserves (wellCollected' ign cur) (addPath' ign cur path prefix).
Proof.
  intros st [Hadm Hidx]. unfold addPath.
  destruct (ResolvePath path) as [resolved|] eqn:Hres; [|by exists st].
  destruct (decide (resolved ∈ ign)); [by exists st|].
  destruct (decide (filepath.Base resolved = cur)); [by exists st|].
  eexists. split; [reflexivity|]. split; simpl.
  - apply Forall_app. split; [done|]. constructor; [|constructor].
    repeat split; simpl; eauto.
  - intros name. simpl. rewrite filter_app, lookup_insert.
    destruct (decide (filepath.Base resolved = name)) as [<-|Hne].
    + simpl. rewrite Hidx. f_equal.
      rewrite filter_cons_True by done. done.
    + rewrite Hidx. rewrite filter_cons_False by done.
      rewrite filter_nil. by rewrite app_nil_r.
Qed.

Lemma processScanDir_preserves I scanDir flagDepth prefix
    (addEntry : string → string → M unit) :
  (∀ p q, preserves I (addEntry p q)) →
  preserves I (processScanDir' scanDir flagDepth prefix addEntry).
Proof.
  intros Hadd. unfold processScanDir.
  destruct (ResolvePath (ScanDir.Path scanDir)); [|apply preserves_ret].
  destruct (GetSubDirs _ _); [|apply preserves_ret].
  apply preserves_forEach. intros; apply Hadd.
Qed.

Lemma collectPaths_preserves ign cur flagDepth :
  preserves (wellCollected' ign cur) (collectPaths' ign cur flagDepth).
Proof.
  unfold collectPaths. apply preserves_bind.
  - apply preserves_forEach. intros sd _.
    apply processScanDir_preserves. intros; apply addPath_preserves.
  - apply preserves_forEach. intros; apply addPath_preserves.
Qed.

(** The collection pass never fails. *)
Lemma collectPaths_returns ign cur flagDepth :
  ∃ st, collectPaths' ign cur flagDepth noPaths = inr (tt, st)
        ∧ wellCollected' ign cur st.
Proof. apply collectPaths_preserves, wellCollected_noPaths. Qed.

Lemma buildIgnoreSet_spec p :
  p ∈ buildIgnoreSet' ↔ ∃ dir, dir ∈ Config.IgnoreDirs cfg ∧ ResolvePath dir = Some p.
Proof.
  unfold buildIgnoreSet.
  assert (∀ l (acc : gset string),
    p ∈ foldl (λ ignoreSet dir,
                 match ResolvePath dir with
                 | Some resolved => {[resolved]} ∪ ignoreSet
                 | None => ignoreSet
                 end) acc l
    ↔ p ∈ acc ∨ ∃ dir, dir ∈ l ∧ ResolvePath dir = Some p) as H.
  { induction l as [|d l IH]; intros acc; simpl.
    - split; [auto|]. intros [?|(? & []%elem_of_nil & _)]; done.
    - rewrite IH. destruct (ResolvePath d) as [r|] eqn:Hr.
      + rewrite elem_of_union, elem_of_singleton. split.
        * intros [[->|?]|(d' & ? & ?)]; eauto.
          -- right. exists d. split; [by left|done].
          -- right. exists d'. split; [by right|done].
        * intros [?|(d' & [->|?]%elem_of_cons & Hd)]; eauto.
          left. left. congruence.
      + split.
        * intros [?|(d' & ? & ?)]; eauto.
          right. exists d'. split; [by right|done].
        * intros [?|(d' & [->|?]%elem_of_cons & Hd)]; eauto. congruence. }
  rewrite H. split; [|eauto]. intros [[]%not_elem_of_empty|?]; done.
Qed.

(** Where a key of the naming loop comes from. *)
Lemma nameEntries_lookup cur ex st m0 k v :
  nameEntries cur ex st m0 !! k = Some v →
  m0 !! k = Some v
  ∨ ∃ info, info ∈ allPaths st
            ∧ k = createDisplayName info (pathsByBaseName st)
            ∧ v = PathInfo.Path info
            ∧ shouldSkipEntry k cur ex = false.
Proof.
  unfold nameEntries. generalize (pathsByBaseName st) as idx.
  generalize (allPaths st) as l. intros l idx. revert m0.
  induction l as [|info l IH]; intros m0; simpl; [auto|].
  intros [H|(info' & ? & ? & ? & ?)]%IH.
  - cbv zeta in H. revert H.
    destruct (shouldSkipEntry (createDisplayName info idx) cur ex) eqn:Hskip;
      intros H; [by left|].
    rewrite lookup_insert in H. case_decide as Hk; [|auto].
    right. exists info. simplify_eq. repeat split; [by left|done].
  - right. exists info'. repeat split; [by right|done..].
Qed.

(** The keys the session loop writes. *)
Lemma addSessions_lookup_session cur visit m s :
  s ∈ visit → s ≠ cur →
  addSessions' cur visit m !! (Config.TmuxSessionPrefix cfg +:+ s) = Some s.
Proof.
  unfold addSessions. revert m.
  induction visit as [|s' visit IH] using rev_ind; intros m Hin Hne.
  - by apply elem_of_nil in Hin.
  - rewrite foldl_app. simpl. destruct (decide (s' = cur)) as [->|Hs'].
    + apply IH; [|done]. apply elem_of_app in Hin as [?|Hin]; [done|].
      apply list_elem_of_singleton in Hin. congruence.
    + rewrite lookup_insert. case_decide as Heq.
      * by apply (inj _) in Heq as ->.
      * apply IH; [|done]. apply elem_of_app in Hin as [?|Hin]; [done|].
        apply list_elem_of_singleton in Hin. congruence.
Qed.

Lemma addSessions_lookup_other cur visit m k :
  (∀ s, s ∈ visit → s ≠ cur → Config.TmuxSessionPrefix cfg +:+ s ≠ k) →
  addSessions' cur visit m !! k = m !! k.
Proof.
  unfold addSessions. revert m.
  induction visit as [|s visit IH]; intros m Hk; simpl; [done|].
  rewrite IH.
  - destruct (decide (s = cur)); [done|].
    rewrite lookup_insert_ne; [done|]. apply Hk; [by left|done].
  - intros s' ? ?. apply Hk; [by right|done].
Qed.

(** Every value of the session loop is that of its key's session, or was
    there before. *)
Lemma addSessions_lookup cur visit m k v :
  addSessions' cur visit m !! k = Some v →
  (v ∈ visit ∧ v ≠ cur ∧ k = Config.TmuxSessionPrefix cfg +:+ v)
  ∨ ((∀ s, s ∈ visit → s ≠ cur → Config.TmuxSessionPrefix cfg +:+ s ≠ k)
     ∧ m !! k = Some v).
Proof.
  intros H.
  destruct (decide (Exists (λ s, s ≠ cur ∧ Config.TmuxSessionPrefix cfg +:+ s = k) visit))
    as [Hex|Hnex].
  - apply Exists_exists in Hex as (s & Hin & Hne & <-).
    rewrite addSessions_lookup_session in H by done. simplify_eq. auto.
  - assert (∀ s, s ∈ visit → s ≠ cur → Config.TmuxSessionPrefix cfg +:+ s ≠ k) as Hk.
    { intros s ? ? ?. apply Hnex, Exists_exists. eauto. }
    rewrite addSessions_lookup_other in H by done. auto.
Qed.

(** [buildDirectoryEntries] always returns a table. *)
Lemma buildDirectoryEntries_returns ex visit cur flagDepth :
  ∃ st, wellCollected' buildIgnoreSet' cur st
        ∧ collectPaths' buildIgnoreSet' cur flagDepth noPaths = inr (tt, st)
        ∧ buildDirectoryEntries' ex visit cur flagDepth
          = inr (addSessions' cur visit (nameEntries cur ex st ∅)).
Proof.
  destruct (collectPaths_returns buildIgnoreSet' cur flagDepth) as (st & Hst & Hwc).
  exists st. split; [done|]. split; [done|].
  unfold buildDirectoryEntries. cbv zeta. by rewrite Hst.
Qed.

Lemma addSessions_permutation cur visit1 visit2 m :
  visit1 ≡ₚ visit2 → addSessions' cur visit1 m = addSessions' cur visit2 m.
Proof.
  intros Hperm. apply map_eq. intros k.
  destruct (decide (Exists (λ s, s ≠ cur ∧ Config.TmuxSessionPrefix cfg +:+ s = k) visit1))
    as [Hex|Hnex].
  - apply Exists_exists in Hex as (s & Hin & Hne & <-).
    rewrite !addSessions_lookup_session; try done. by rewrite <-Hperm.
  - rewrite !addSessions_lookup_other; [done|..].
    + intros s Hin ? ?. apply Hnex, Exists_exists. exists s. by rewrite Hperm.
    + intros s Hin ? ?. apply Hnex, Exists_exists. eauto.
Qed.

(** C7: two runs of [buildDirectoryEntries] on the same configuration,
    file system, live sessions and current session return the same table
    (same keys, same values), in whatever order each run visits the map of
    live sessions. *)
Theorem table_independent_of_visit_order ex visit1 visit2 cur flagDepth :
  rangeOrder ex visit1 → rangeOrder ex visit2 →
  buildDirectoryEntries ResolvePath GetSubDirs cfg ex visit1 cur flagDepth
  = buildDirectoryEntries ResolvePath GetSubDirs cfg ex visit2 cur flagDepth.
Proof.
  unfold rangeOrder. intros H1 H2.
  destruct (buildDirectoryEntries_returns ex visit1 cur flagDepth)
    as (st1 & _ & Hst1 & ->).
  destruct (buildDirectoryEntries_returns ex visit2 cur flagDepth)
    as (st2 & _ & Hst2 & ->).
  rewrite Hst1 in Hst2. injection Hst2 as <-. f_equal.
  apply addSessions_permutation. by rewrite H1, H2.
Qed.

(** C9: a path whose resolved form has the current session's name as base
    name is skipped by [addPath]: neither the list of paths nor the index by
    base name changes.  This holds although, with a prefix or with a
    disambiguating parent, the display name of that path would have
    differed from the current session's name. *)
Theorem base_name_of_current_session_is_skipped ign cur path prefix resolved :
  ResolvePath path = Some resolved →
  filepath.Base resolved = cur →
  (∀ st, addPath ResolvePath ign cur path prefix st = inr (tt, st))
  ∧ ∀ idx,
      prefix ≠ "" ∨ (1 < length (default [] (idx !! filepath.Base resolved)))%nat →
      createDisplayName {| PathInfo.Path := resolved; PathInfo.Prefix := prefix |} idx
      ≠ cur.
Proof.
  intros Hres Hbase. split.
  - intros st. unfold addPath. rewrite Hres.
    destruct (decide (resolved ∈ ign)); [done|].
    by rewrite decide_True.
  - intros idx Hor Heq. apply (f_equal String.length) in Heq.
    unfold createDisplayName in Heq. simpl in Heq. rewrite Hbase in Heq.
    destruct (decide (1 < length (default [] (idx !! cur)))%nat) as [Hlen|Hlen];
      destruct (decide (prefix ≠ "")) as [Hp|Hp];
      rewrite ?length_append in Heq; simpl in Heq; try lia.
    rewrite Hbase in Hor. destruct Hor as [?|?]; [|lia].
    by apply Hp.
Qed.

End engine_facts.

(** C8: a scan root whose path does not resolve adds no candidate and
    raises no error, and the table is the one the remaining sources give:
    [buildDirectoryEntries] returns the same table, without error, as for
    the configuration without that scan root. *)
Theorem unresolved_scan_root_is_skipped ResolvePath GetSubDirs cfg
    before sd after ex visit cur flagDepth :
  ResolvePath (ScanDir.Path sd) = None →
  (∀ prefix addEntry st,
      processScanDir ResolvePath GetSubDirs cfg sd flagDepth prefix addEntry st
      = inr (tt, st))
  ∧ ∃ entries,
      buildDirectoryEntries ResolvePath GetSubDirs
        (withScanDirs cfg (before ++ sd :: after)) ex visit cur flagDepth
      = inr entries
      ∧ buildDirectoryEntries ResolvePath GetSubDirs
          (withScanDirs cfg (before ++ after)) ex visit cur flagDepth
        = inr entries.
Proof.
  intros Hres.
  assert (∀ c prefix addEntry st,
    processScanDir ResolvePath GetSubDirs c sd flagDepth prefix addEntry st
    = inr (tt, st)) as Hskip.
  { intros. unfold processScanDir. by rewrite Hres. }
  split; [apply Hskip|].
  destruct (buildDirectoryEntries_returns ResolvePath GetSubDirs
              (withScanDirs cfg (before ++ after)) ex visit cur flagDepth)
    as (st & _ & Hst & Heq).
  eexists. split; [|exact Heq].
  unfold buildDirectoryEntries in *. cbv zeta in *.
  unfold collectPaths, bind in *. simpl Config.ScanDirs in *.
  rewrite forEach_skip by (intros; apply Hskip). exact Heq.
Qed.


(** ** Facts about the presentation order *)

Lemma Compare_le a b : Compare a b ≤ 0 ↔ (a ≤ b)%string.
Proof.
  unfold Compare, String.le, String.leb.
  destruct (String.compare a b); simpl; split; (lia || done).
Qed.

#[global] Instance namesLe_trans tmuxSessionPrefix :
  Transitive (namesLe tmuxSessionPrefix).
Proof.
  intros a b c. unfold namesLe, cmpLe, namesCmp.
  destruct (HasPrefix a tmuxSessionPrefix), (HasPrefix b tmuxSessionPrefix),
    (HasPrefix c tmuxSessionPrefix); simpl; try lia;
    rewrite !Compare_le; apply transitivity.
Qed.

#[global] Instance namesLe_total tmuxSessionPrefix :
  Total (namesLe tmuxSessionPrefix).
Proof.
  intros a b. unfold namesLe, cmpLe, namesCmp.
  destruct (HasPrefix a tmuxSessionPrefix), (HasPrefix b tmuxSessionPrefix);
    simpl; try lia; rewrite !Compare_le; apply total, _.
Qed.

Lemma StronglySorted_lookup {A} (R : relation A) l i j a b :
  StronglySorted R l → (i < j)%nat →
  l !! i = Some a → l !! j = Some b → R a b.
Proof.
  intros Hsorted. revert i j.
  induction Hsorted as [|x l _ IH Hall]; intros i j Hij Hi Hj; [done|].
  destruct j as [|j]; [lia|]. destruct i as [|i]; simpl in *.
  - injection Hi as ->. rewrite Forall_forall in Hall.
    apply Hall. by eapply list_elem_of_lookup_2.
  - apply (IH i j); [lia|done..].
Qed.

(** What [namesLe] says of two names. *)
Lemma namesLe_spec tmuxSessionPrefix a b :
  namesLe tmuxSessionPrefix a b →
  (HasPrefix b tmuxSessionPrefix = true → HasPrefix a tmuxSessionPrefix = true)
  ∧ (HasPrefix a tmuxSessionPrefix = HasPrefix b tmuxSessionPrefix → Compare a b ≤ 0).
Proof.
  unfold namesLe, cmpLe, namesCmp.
  destruct (HasPrefix a tmuxSessionPrefix), (HasPrefix b tmuxSessionPrefix);
    simpl; intros; split; intros; (done || lia).
Qed.

(** C6: the names handed to the picker are the given names, rearranged so
    that every name carrying the live-session prefix comes before every name
    that does not, and so that, within each of the two groups, the names are
    in lexicographic order; with prefix TMUX/ the names alpha, TMUX/zeta,
    beta, TMUX/gamma come out as TMUX/gamma, TMUX/zeta, alpha, beta. *)
Theorem picker_names_sorted tmuxSessionPrefix names :
  sortNames tmuxSessionPrefix names ≡ₚ names
  ∧ (∀ i j a b, (i < j)%nat →
       sortNames tmuxSessionPrefix names !! i = Some a →
       sortNames tmuxSessionPrefix names !! j = Some b →
       (HasPrefix b tmuxSessionPrefix = true → HasPrefix a tmuxSessionPrefix = true)
       ∧ (HasPrefix a tmuxSessionPrefix = HasPrefix b tmuxSessionPrefix
          → Compare a b ≤ 0))
  ∧ sortNames "TMUX/" ["alpha"; "TMUX/zeta"; "beta"; "TMUX/gamma"]
    = ["TMUX/gamma"; "TMUX/zeta"; "alpha"; "beta"].
Proof.
  split; [apply merge_sort_Permutation|]. split; [|by vm_compute].
  intros i j a b Hij Hi Hj. apply namesLe_spec.
  eapply StronglySorted_lookup; [|done..].
  apply (StronglySorted_merge_sort (namesLe tmuxSessionPrefix)).
Qed.

#[global] Instance namesLe_antisymm tmuxSessionPrefix :
  AntiSymm (=) (namesLe tmuxSessionPrefix).
Proof.
  intros a b. unfold namesLe, cmpLe, namesCmp.
  destruct (HasPrefix a tmuxSessionPrefix), (HasPrefix b tmuxSessionPrefix);
    simpl; try lia; rewrite !Compare_le; apply (anti_symm _).
Qed.

(** The order of the names is determined by the comparison alone: every
    rearrangement of [names] that is sorted by [namesCmp] is [sortNames]. *)
Lemma sortNames_unique tmuxSessionPrefix names sorted :
  Sorted (namesLe tmuxSessionPrefix) sorted → sorted ≡ₚ names →
  sorted = sortNames tmuxSessionPrefix names.
Proof.
  intros Hsorted Hperm. apply (Sorted_unique (namesLe tmuxSessionPrefix)).
  - done.
  - apply (Sorted_merge_sort (namesLe tmuxSessionPrefix)).
  - rewrite Hperm. symmetry. apply merge_sort_Permutation.
Qed.

(** ** Facts about [RunE] *)

(** C10 (as amended): the chosen name is checked to be an entry only when
    no positional argument was given.  A name picked with the picker that
    is not a key of the table makes the command return an error, without
    launching, whatever the name.  The same name given as the positional
    argument is rejected by [PreRunE] if it is init or edit; otherwise it is
    handed to [tmux.CreateAndSwitchSession] as a session of that name, the
    session prefix cut off, with the empty path, and the command returns
    what the launch returns. *)
Theorem membership_checked_only_when_picked ResolvePath GetSubDirs cfg
    SelectWithFzf CreateAndSwitchSession rangeKeys
    ex visit cur flagDepth entries choice :
  buildDirectoryEntries ResolvePath GetSubDirs cfg ex visit cur flagDepth
  = inr entries →
  entries !! choice = None →
  choice ≠ "" →
  let session :=
    {| Session.Name := (CutPrefix choice (Config.TmuxSessionPrefix cfg)).1;
       Session.Path := "" |} in
  (SelectWithFzf (sortNames (Config.TmuxSessionPrefix cfg) (rangeKeys entries))
   = (choice, None) →
   run ResolvePath GetSubDirs cfg SelectWithFzf CreateAndSwitchSession rangeKeys
     ex visit cur flagDepth []
   = Return None (Some (nameMustMatch choice)))
  ∧ (choice ≠ "init" → choice ≠ "edit" →
     run ResolvePath GetSubDirs cfg SelectWithFzf CreateAndSwitchSession rangeKeys
       ex visit cur flagDepth [choice]
     = Return (Some session) (failedToSwitch <$> CreateAndSwitchSession session))
  ∧ (choice = "init" ∨ choice = "edit" →
     run ResolvePath GetSubDirs cfg SelectWithFzf CreateAndSwitchSession rangeKeys
       ex visit cur flagDepth [choice]
     = Return None (Some (unknownCommand choice choice))).
Proof.
  intros Hbuild Hnone Hne session. split; [|split].
  - intros Hpick. unfold run, PreRunE, RunE. rewrite Hbuild. simpl.
    rewrite Hpick. rewrite decide_False by done.
    unfold resolveChoice. rewrite Hnone. by rewrite decide_True.
  - intros Hinit Hedit. unfold run, PreRunE.
    rewrite (decide_False (P := choice = "init")) by done.
    rewrite (decide_False (P := choice = "edit")) by done.
    unfold RunE. rewrite Hbuild. rewrite decide_False by done.
    unfold resolveChoice. rewrite Hnone. rewrite decide_False by done.
    unfold launch. fold session. by destruct (CreateAndSwitchSession session).
  - intros Hreserved. unfold run. by destruct Hreserved as [-> | ->].
Qed.

(** ** Facts about the scan depth *)


(** ** The engine on concrete inputs *)

(** Two explicit entries [/a/x/foo] and [/b/x/foo], both existing, no live
    session.  Both are recorded, both get the display name foo (x), and the
    table keeps one key, under which the second path has replaced the
    first. *)
Lemma same_parent_name_overwrites :
  let resolve := resolveAmong ["/a/x/foo"; "/b/x/foo"] in
  let cfg := mkCfg [] ["/a/x/foo"; "/b/x/foo"] [] in
  let st := {| allPaths := [plain "/a/x/foo"; plain "/b/x/foo"];
               pathsByBaseName := {[ "foo" := [plain "/a/x/foo"; plain "/b/x/foo"] ]} |} in
  collectPaths resolve (subDirsFrom []) cfg (buildIgnoreSet resolve cfg) "" 0 noPaths
  = inr (tt, st)
  ∧ createDisplayName (plain "/a/x/foo") (pathsByBaseName st) = "foo (x)"
  ∧ createDisplayName (plain "/b/x/foo") (pathsByBaseName st) = "foo (x)"
  ∧ buildDirectoryEntries resolve (subDirsFrom []) cfg ∅ [] "" 0
    = inr {[ "foo (x)" := "/b/x/foo" ]}.
Proof. repeat split; by vm_compute. Qed.

(** C2: three recorded candidates of base name foo, two of them below
    parents that are both named x.  Each display name is the base name
    followed by the parent's name in parentheses, and two of the three
    names are the same. *)
Theorem parent_qualified_names_repeat :
  let dirs := ["/a/x/foo"; "/b/x/foo"; "/c/y/foo"] in
  let resolve := resolveAmong dirs in
  let cfg := mkCfg [] dirs [] in
  let st := {| allPaths := plain <$> dirs;
               pathsByBaseName := {[ "foo" := plain <$> dirs ]} |} in
  collectPaths resolve (subDirsFrom []) cfg (buildIgnoreSet resolve cfg) "" 0 noPaths
  = inr (tt, st)
  ∧ displayNames st = ["foo (x)"; "foo (x)"; "foo (y)"]
  ∧ ¬ NoDup (displayNames st).
Proof.
  repeat split; try by vm_compute.
  intros Hnd. vm_compute in Hnd. apply NoDup_cons in Hnd as [Hnotin _].
  apply Hnotin. by left.
Qed.

(** C1 fails as stated: the scan root [/w] has the alias TMUX and holds
    [/w/foo], the session prefix is TMUX/ and a session foo is live.  The
    directory's display name and the session's key are both TMUX/foo, and
    the session's entry replaces the directory's. *)
Lemma live_key_replaces_directory_key :
  let resolve := resolveAmong ["/w"; "/w/foo"] in
  let scan := subDirsFrom [("/w", ["/w/foo"])] in
  let cfg := mkCfg [{| ScanDir.Path := "/w"; ScanDir.Depth := None;
                       ScanDir.Alias := "TMUX" |}] [] [] in
  let ex := sessionSet ["foo"] in
  let info := {| PathInfo.Path := "/w/foo"; PathInfo.Prefix := "TMUX" |} in
  let st := {| allPaths := [info]; pathsByBaseName := {[ "foo" := [info] ]} |} in
  rangeOrder ex ["foo"]
  ∧ collectPaths resolve scan cfg (buildIgnoreSet resolve cfg) "" 0 noPaths
    = inr (tt, st)
  ∧ nameEntries "" ex st ∅ = {[ "TMUX/foo" := "/w/foo" ]}
  ∧ buildDirectoryEntries resolve scan cfg ex ["foo"] "" 0
    = inr {[ "TMUX/foo" := "foo" ]}.
Proof.
  split; [unfold rangeOrder; by vm_compute|]. repeat split; by vm_compute.
Qed.

(** C3 fails as stated: with session prefix TMUX/, live sessions foo and
    TMUX/foo, the latter being the current one, the session foo is listed
    under the key TMUX/foo, which is the current session's name. *)
Lemma current_session_name_as_live_key :
  let ex := sessionSet ["foo"; "TMUX/foo"] in
  rangeOrder ex ["foo"; "TMUX/foo"]
  ∧ ∃ entries,
      buildDirectoryEntries (resolveAmong ["/p/a"]) (subDirsFrom [])
        (mkCfg [] ["/p/a"] []) ex ["foo"; "TMUX/foo"] "TMUX/foo" 0 = inr entries
      ∧ entries !! "TMUX/foo" = Some "foo".
Proof.
  split.
  - unfold rangeOrder. by vm_compute.
  - exists {[ "a" := "/p/a"; "TMUX/foo" := "foo" ]}. split; by vm_compute.
Qed.

(** The string of an ignored path can still be a value of the table, as
    the name of a live session: [/proj/old] is ignored, and a live session
    bears the name /proj/old; the table lists that session under its
    live-session key, with its name as value. *)
Lemma ignored_path_as_session_value :
  let resolve := resolveAmong ["/proj/old"; "/proj/new"] in
  let cfg := mkCfg [] ["/proj/new"] ["/proj/old"] in
  let ex := sessionSet ["/proj/old"] in
  "/proj/old" ∈ buildIgnoreSet resolve cfg
  ∧ rangeOrder ex ["/proj/old"]
  ∧ ∃ entries,
      buildDirectoryEntries resolve (subDirsFrom []) cfg ex ["/proj/old"] "" 0
      = inr entries
      ∧ entries !! "TMUX//proj/old" = Some "/proj/old".
Proof.
  split; [|split].
  - apply buildIgnoreSet_spec. exists "/proj/old". split; [by left|done].
  - unfold rangeOrder. by vm_compute.
  - exists {[ "new" := "/proj/new"; "TMUX//proj/old" := "/proj/old" ]}.
    split; by vm_compute.
Qed.

Lemma table_independent_of_visit_order_witness :
  buildDirectoryEntries (resolveAmong ["/p/a"]) (subDirsFrom [])
    (mkCfg [] ["/p/a"] []) (sessionSet ["mail"; "chat"]) ["mail"; "chat"] "" 0
  = buildDirectoryEntries (resolveAmong ["/p/a"]) (subDirsFrom [])
      (mkCfg [] ["/p/a"] []) (sessionSet ["mail"; "chat"]) ["chat"; "mail"] "" 0.
Proof.
  apply table_independent_of_visit_order; unfold rangeOrder;
    apply (bool_decide_unpack _); by vm_compute.
Defined.

Lemma unresolved_scan_root_is_skipped_witness :
  let resolve := resolveAmong ["/proj"; "/proj/a"] in
  let scan := subDirsFrom [("/proj", ["/proj/a"])] in
  let cfg := mkCfg [] [] [] in
  resolve "/missing" = None
  ∧ ∃ entries,
      buildDirectoryEntries resolve scan
        (withScanDirs cfg ([] ++ scanRoot "/missing" :: [scanRoot "/proj"])) ∅ [] "" 0
      = inr entries
      ∧ buildDirectoryEntries resolve scan
          (withScanDirs cfg ([] ++ [scanRoot "/proj"])) ∅ [] "" 0
        = inr entries.
Proof.
  intros resolve scan cfg. split; [reflexivity|].
  apply (unresolved_scan_root_is_skipped resolve scan cfg
           [] (scanRoot "/missing") [scanRoot "/proj"] ∅ [] "" 0).
  reflexivity.
Defined.

Lemma base_name_of_current_session_is_skipped_witness :
  let resolve := resolveAmong ["/home/u/work"] in
  (∀ st, addPath resolve ∅ "work" "/home/u/work" "W" st = inr (tt, st))
  ∧ createDisplayName {| PathInfo.Path := "/home/u/work"; PathInfo.Prefix := "W" |} ∅
    ≠ "work".
Proof.
  intros resolve.
  destruct (base_name_of_current_session_is_skipped resolve ∅ "work"
              "/home/u/work" "W" "/home/u/work") as [Hskip Hname];
    [reflexivity..|].
  split; [exact Hskip|]. apply Hname. by left.
Defined.

Lemma picker_names_sorted_witness :
  HasPrefix "TMUX/zeta" "TMUX/" = true ∧ Compare "TMUX/gamma" "TMUX/zeta" ≤ 0.
Proof.
  destruct (picker_names_sorted "TMUX/" ["alpha"; "TMUX/zeta"; "beta"; "TMUX/gamma"])
    as (_ & Horder & _).
  destruct (Horder 0%nat 1%nat "TMUX/gamma" "TMUX/zeta") as [_ Hlex];
    [lia|reflexivity..|].
  destruct (Horder 1%nat 2%nat "TMUX/zeta" "alpha") as [Hfirst _];
    [lia|reflexivity..|].
  split; [|by apply Hlex].
  destruct (HasPrefix "TMUX/zeta" "TMUX/") eqn:Hzeta; [reflexivity|].
  by vm_compute in Hzeta.
Defined.

(** C10 fails as stated: init is no key of the table, and given as the
    positional argument it makes the command return an error: [PreRunE]
    rejects it and no session is launched. *)
Lemma positional_init_is_rejected :
  let resolve := resolveAmong ["/p/a"] in
  let cfg := mkCfg [] ["/p/a"] [] in
  let pick : list string → string * option string := λ _, ("init", None) in
  let create : Session.t → option string := λ _, None in
  buildDirectoryEntries resolve (subDirsFrom []) cfg ∅ [] "" 0
  = inr {[ "a" := "/p/a" ]}
  ∧ ({[ "a" := "/p/a" ]} : gmap string string) !! "init" = None
  ∧ run resolve (subDirsFrom []) cfg pick create keysOf ∅ [] "" 0 []
    = Return None (Some (nameMustMatch "init"))
  ∧ run resolve (subDirsFrom []) cfg pick create keysOf ∅ [] "" 0 ["init"]
    = Return None (Some (unknownCommand "init" "init")).
Proof. repeat split; by vm_compute. Qed.

(** ** More about the collection pass *)

Lemma appends_ret : appends [] (ret tt).
Proof. intros st. exists st. by rewrite app_nil_r. Qed.

Lemma appends_bind added1 added2 (m k : M unit) :
  appends added1 m → appends added2 k → appends (added1 ++ added2) (m ;;; k).
Proof.
  intros Hm Hk st. unfold bind.
  destruct (Hm st) as (st1 & -> & H1). destruct (Hk st1) as (st2 & -> & H2).
  exists st2. split; [done|]. by rewrite H2, H1, app_assoc.
Qed.

Lemma appends_forEach {A} (f : A → M unit) (g : A → list PathInfo.t) (l : list A) :
  (∀ x, appends (g x) (f x)) → appends (l ≫= g) (forEach f l).
Proof.
  intros Hf. induction l as [|x l IH]; simpl.
  - apply appends_ret.
  - apply appends_bind; [apply Hf|apply IH].
Qed.

Lemma omap_option_list {A B} (f : A → option B) (l : list A) :
  omap f l = l ≫= (λ x, option_list (f x)).
Proof.
  induction l as [|x l IH]; csimpl; [done|].
  destruct (f x); csimpl; by rewrite IH.
Qed.

(** [filepath.Base] never returns the empty string. *)
Lemma Base_nonempty path : filepath.Base path ≠ "".
Proof.
  unfold filepath.Base. destruct (decide (path = "")); [done|].
  by destruct (decide (_ = "")).
Qed.

Section engine_more.

Variable ResolvePath : string → option string.
Variable GetSubDirs : Z → string → option (list string).
Variable cfg : Config.t.

Lemma addPath_appends ign cur path prefix :
  appends (option_list (admission ResolvePath ign cur path prefix))
          (addPath ResolvePath ign cur path prefix).
Proof.
  intros st. unfold addPath, admission.
  destruct (ResolvePath path) as [resolved|];
    [|exists st; by rewrite app_nil_r].
  destruct (decide (resolved ∈ ign)); [exists st; by rewrite app_nil_r|].
  destruct (decide (filepath.Base resolved = cur));
    [exists st; by rewrite app_nil_r|].
  eexists. split; reflexivity.
Qed.

Lemma processScanDir_appends ign cur flagDepth scanDir :
  appends (scanned ResolvePath GetSubDirs cfg ign cur flagDepth scanDir)
          (processScanDir ResolvePath GetSubDirs cfg scanDir flagDepth
             (ScanDir.Alias scanDir) (addPath ResolvePath ign cur)).
Proof.
  unfold processScanDir, scanned.
  destruct (ResolvePath (ScanDir.Path scanDir)); [|apply appends_ret].
  destruct (GetSubDirs _ _); [|apply appends_ret].
  rewrite omap_option_list.
  apply (appends_forEach
           (λ subDir, addPath ResolvePath ign cur subDir (ScanDir.Alias scanDir))).
  intros. apply addPath_appends.
Qed.

(** X1: the collection pass returns no error and records the candidates in
    the order of the configuration: for each scan directory in turn the
    admitted subdirectories in the scanner's order, under the alias of the
    scan directory, then the admitted entry directories without prefix.  A
    path is admitted when it resolves, its resolved form is not ignored and
    the base name of that form is not the current session. *)
Theorem collectPaths_records ign cur flagDepth :
  ∃ st, collectPaths ResolvePath GetSubDirs cfg ign cur flagDepth noPaths
        = inr (tt, st)
        ∧ allPaths st = candidates ResolvePath GetSubDirs cfg ign cur flagDepth.
Proof.
  assert (appends (candidates ResolvePath GetSubDirs cfg ign cur flagDepth)
            (collectPaths ResolvePath GetSubDirs cfg ign cur flagDepth)) as H.
  { unfold collectPaths, candidates. apply appends_bind.
    - apply (appends_forEach
               (λ scanDir, processScanDir ResolvePath GetSubDirs cfg scanDir
                             flagDepth (ScanDir.Alias scanDir)
                             (addPath ResolvePath ign cur))).
      intros. apply processScanDir_appends.
    - rewrite omap_option_list.
      apply (appends_forEach (λ entryDir, addPath ResolvePath ign cur entryDir "")).
      intros. apply addPath_appends. }
  destruct (H noPaths) as (st & Hst & Hall). by exists st.
Qed.

(** X2: in the state the collection pass returns, the index by base name
    holds under every name exactly the recorded candidates whose resolved
    path has that base name, in the order of recording; under a name that
    no recorded path has, it holds nothing. *)
Theorem collectPaths_index ign cur flagDepth :
  ∃ st, collectPaths ResolvePath GetSubDirs cfg ign cur flagDepth noPaths
        = inr (tt, st)
        ∧ ∀ name,
            default [] (pathsByBaseName st !! name)
            = filter (λ info, filepath.Base (PathInfo.Path info) = name)
                (allPaths st).
Proof.
  destruct (collectPaths_returns ResolvePath GetSubDirs cfg ign cur flagDepth)
    as (st & Hst & _ & Hidx).
  by exists st.
Qed.

(** X3: [buildDirectoryEntries] never returns an error: its two
    [return nil, err] are never reached, since [addPath] absorbs every
    failure. *)
Theorem buildDirectoryEntries_never_fails ex visit cur flagDepth :
  ∃ entries,
    buildDirectoryEntries ResolvePath GetSubDirs cfg ex visit cur flagDepth
    = inr entries.
Proof.
  destruct (buildDirectoryEntries_returns ResolvePath GetSubDirs cfg
              ex visit cur flagDepth) as (st & _ & _ & ->).
  by eexists.
Qed.

End engine_more.

(** ** More about the table *)

Lemma nameEntries_last cur ex st m0 k :
  nameEntries cur ex st m0 !! k
  = match last (filter (λ info, createDisplayName info (pathsByBaseName st) = k)
                  (allPaths st)) with
    | Some info => if shouldSkipEntry k cur ex then m0 !! k
                   else Some (PathInfo.Path info)
    | None => m0 !! k
    end.
Proof.
  unfold nameEntries. generalize (pathsByBaseName st) as idx.
  generalize (allPaths st) as l. intros l idx.
  induction l as [|info l IH] using rev_ind; [done|].
  rewrite foldl_app, filter_app. simpl. cbv zeta.
  destruct (decide (createDisplayName info idx = k)) as [<-|Hne].
  - rewrite filter_cons_True, filter_nil, last_snoc by done.
    destruct (shouldSkipEntry (createDisplayName info idx) cur ex) eqn:Hskip.
    + rewrite IH. by destruct (last _).
    + by rewrite lookup_insert_eq.
  - rewrite filter_cons_False, filter_nil, app_nil_r by done.
    destruct (shouldSkipEntry (createDisplayName info idx) cur ex);
      [done|]. by rewrite lookup_insert_ne.
Qed.

Section table_more.

Variable ResolvePath : string → option string.
Variable GetSubDirs : Z → string → option (list string).
Variable cfg : Config.t.

(** X4: under a key that is not the key of a live session, the table holds
    the path of the candidate recorded last among those with that display
    name, and nothing if there is none or if the name is the current
    session's or an existing session's: a later candidate of the same
    display name replaces an earlier one. *)
Theorem directory_entry_is_last_of_its_name ex visit cur flagDepth st entries k :
  collectPaths ResolvePath GetSubDirs cfg (buildIgnoreSet ResolvePath cfg)
    cur flagDepth noPaths = inr (tt, st) →
  buildDirectoryEntries ResolvePath GetSubDirs cfg ex visit cur flagDepth
  = inr entries →
  (∀ s, s ∈ visit → s ≠ cur → Config.TmuxSessionPrefix cfg +:+ s ≠ k) →
  entries !! k
  = if shouldSkipEntry k cur ex then None
    else PathInfo.Path
           <$> last (filter (λ info, createDisplayName info (pathsByBaseName st) = k)
                       (allPaths st)).
Proof.
  intros Hst Hbuild Hk.
  destruct (buildDirectoryEntries_returns ResolvePath GetSubDirs cfg
              ex visit cur flagDepth) as (st' & _ & Hst' & Heq).
  rewrite Hst in Hst'. injection Hst' as <-.
  rewrite Heq in Hbuild. injection Hbuild as <-.
  rewrite addSessions_lookup_other by done.
  rewrite nameEntries_last, lookup_empty.
  destruct (last _); simpl; by destruct (shouldSkipEntry k cur ex).
Qed.

(** X5: every live session other than the current one is in the table,
    under the session prefix followed by its name and with its name as
    value, whatever directories were recorded. *)
Theorem live_sessions_are_listed ex visit cur flagDepth entries s :
  buildDirectoryEntries ResolvePath GetSubDirs cfg ex visit cur flagDepth
  = inr entries →
  s ∈ visit → s ≠ cur →
  entries !! (Config.TmuxSessionPrefix cfg +:+ s) = Some s.
Proof.
  intros Hbuild Hin Hne.
  destruct (buildDirectoryEntries_returns ResolvePath GetSubDirs cfg
              ex visit cur flagDepth) as (st & _ & _ & Heq).
  rewrite Heq in Hbuild. injection Hbuild as <-.
  by apply addSessions_lookup_session.
Qed.

(** X6: every entry of the table is either the entry of a live session
    other than the current one (key: prefix and name, value: name), or a
    directory entry, whose value is the resolved form of some path, is not
    ignored and does not have the current session's name as base name, and
    whose key is neither the current session's name nor the name of an
    existing session. *)
Theorem entries_are_sessions_or_admitted_paths ex visit cur flagDepth entries k v :
  buildDirectoryEntries ResolvePath GetSubDirs cfg ex visit cur flagDepth
  = inr entries →
  entries !! k = Some v →
  (v ∈ visit ∧ v ≠ cur ∧ k = Config.TmuxSessionPrefix cfg +:+ v)
  ∨ ((∃ path, ResolvePath path = Some v)
     ∧ (v ∉ buildIgnoreSet ResolvePath cfg)
     ∧ filepath.Base v ≠ cur
     ∧ k ≠ cur
     ∧ index ex k = false).
Proof.
  intros Hbuild Hk.
  destruct (buildDirectoryEntries_returns ResolvePath GetSubDirs cfg
              ex visit cur flagDepth) as (st & [Hadm _] & _ & Heq).
  rewrite Heq in Hbuild. injection Hbuild as <-.
  apply addSessions_lookup in Hk as [?|[_ Hk]]; [by left|]. right.
  apply nameEntries_lookup in Hk as [Hk|(info & Hin & _ & -> & Hskip)].
  { by rewrite lookup_empty in Hk. }
  rewrite Forall_forall in Hadm.
  destruct (Hadm info Hin) as (Hign & Hbase & Hres).
  unfold shouldSkipEntry in Hskip. apply orb_false_iff in Hskip as [Hcur Hex].
  apply bool_decide_eq_false in Hcur. done.
Qed.

(** X7: a scan directory whose root resolves but whose scan fails adds no
    candidate and raises no error: the table is the one of the
    configuration without that scan directory. *)
Theorem failed_scan_is_skipped before sd after ex visit cur flagDepth resolved :
  ResolvePath (ScanDir.Path sd) = Some resolved →
  GetSubDirs (GetDepth sd flagDepth (Config.DefaultDepth cfg)) resolved = None →
  buildDirectoryEntries ResolvePath GetSubDirs
    (withScanDirs cfg (before ++ sd :: after)) ex visit cur flagDepth
  = buildDirectoryEntries ResolvePath GetSubDirs
      (withScanDirs cfg (before ++ after)) ex visit cur flagDepth.
Proof.
  intros Hres Hscan.
  unfold buildDirectoryEntries. cbv zeta.
  unfold collectPaths, bind. simpl Config.ScanDirs.
  rewrite forEach_skip; [done|].
  intros st'. unfold processScanDir. simpl. by rewrite Hres, Hscan.
Qed.

(** X8: an entry directory that does not resolve, or resolves to an
    ignored path, or to a path whose base name is the current session's
    name, leaves no trace: the table is the one of the configuration
    without that entry directory. *)
Theorem dropped_entry_dir_leaves_no_trace before entryDir after
    ex visit cur flagDepth :
  (ResolvePath entryDir = None
   ∨ ∃ resolved, ResolvePath entryDir = Some resolved
                 ∧ (resolved ∈ buildIgnoreSet ResolvePath cfg
                    ∨ filepath.Base resolved = cur)) →
  buildDirectoryEntries ResolvePath GetSubDirs
    (withEntryDirs cfg (before ++ entryDir :: after)) ex visit cur flagDepth
  = buildDirectoryEntries ResolvePath GetSubDirs
      (withEntryDirs cfg (before ++ after)) ex visit cur flagDepth.
Proof.
  intros Hdrop.
  unfold buildDirectoryEntries. cbv zeta.
  unfold collectPaths, bind. simpl Config.ScanDirs. simpl Config.EntryDirs.
  change (buildIgnoreSet ResolvePath (withEntryDirs cfg (before ++ entryDir :: after)))
    with (buildIgnoreSet ResolvePath cfg).
  change (buildIgnoreSet ResolvePath (withEntryDirs cfg (before ++ after)))
    with (buildIgnoreSet ResolvePath cfg).
  destruct (forEach _ (Config.ScanDirs cfg) noPaths) as [e|[[] st]]; [done|].
  rewrite forEach_skip; [done|].
  intros st'. unfold addPath.
  destruct Hdrop as [->|(resolved & -> & [Hign|Hbase])]; [done|..].
  - by rewrite decide_True.
  - destruct (decide (resolved ∈ _)); [done|]. by rewrite decide_True.
Qed.

(** X9: outside tmux, where the current session's name is empty, [addPath]
    records every path that resolves to a path that is not ignored: no base
    name equals the empty name. *)
Theorem addPath_records_outside_tmux ign path prefix resolved st :
  ResolvePath path = Some resolved →
  resolved ∉ ign →
  let info := {| PathInfo.Path := resolved; PathInfo.Prefix := prefix |} in
  addPath ResolvePath ign "" path prefix st
  = inr (tt,
         {| allPaths := allPaths st ++ [info];
            pathsByBaseName :=
              <[filepath.Base resolved :=
                  default [] (pathsByBaseName st !! filepath.Base resolved) ++ [info]]>
                (pathsByBaseName st) |}).
Proof.
  intros Hres Hign info. unfold addPath. rewrite Hres.
  rewrite decide_False by done.
  rewrite decide_False by apply Base_nonempty. done.
Qed.

(** X10: when two candidates recorded by the collection pass, at different
    positions, have the same base name (two directories, or one directory
    recorded twice), the display name of each is the base name followed by
    the base name of its parent directory in parentheses, after the
    candidate's prefix and a slash if it has a prefix. *)
Theorem repeated_base_name_is_qualified ign cur flagDepth st i j a b :
  collectPaths ResolvePath GetSubDirs cfg ign cur flagDepth noPaths
  = inr (tt, st) →
  i ≠ j →
  allPaths st !! i = Some a → allPaths st !! j = Some b →
  filepath.Base (PathInfo.Path a) = filepath.Base (PathInfo.Path b) →
  let qualified :=
    filepath.Base (PathInfo.Path a) +:+ " ("
    +:+ filepath.Base (filepath.Dir (PathInfo.Path a)) +:+ ")" in
  createDisplayName a (pathsByBaseName st)
  = if decide (PathInfo.Prefix a ≠ "")
    then PathInfo.Prefix a +:+ "/" +:+ qualified
    else qualified.
Proof.
  intros Hst Hij Hi Hj Hbase qualified.
  destruct (collectPaths_returns ResolvePath GetSubDirs cfg ign cur flagDepth)
    as (st' & Hst' & _ & Hidx).
  rewrite Hst in Hst'. injection Hst' as <-.
  unfold createDisplayName. rewrite Hidx.
  rewrite (decide_True (P := (1 < _)%nat)); [done|].
  destruct (decide (i < j)%nat).
  - by eapply (filter_two _ _ i j a b).
  - eapply (filter_two _ _ j i b a); [lia|done..].
Qed.

End table_more.

(** ** Live sessions, the current session and ignored paths in the table *)

Section table_keys.

Variable ResolvePath : string → option string.
Variable GetSubDirs : Z → string → option (list string).
Variable cfg : Config.t.

(** C1 (as amended): the session loop, which runs last, writes every live
    session other than the current one under the session prefix followed
    by its name, with its name as value: no live entry is lost to another
    entry.  Under every other key the table holds what the naming loop
    stored.  A live-session insertion replaces a directory entry exactly
    when a recorded directory that the collision check did not drop has the
    session's key as its display name; in every other case the
    live-session keys and the directory keys are apart. *)
Theorem live_entries_and_directory_entries ex visit cur flagDepth st entries :
  collectPaths ResolvePath GetSubDirs cfg (buildIgnoreSet ResolvePath cfg)
    cur flagDepth noPaths = inr (tt, st) →
  buildDirectoryEntries ResolvePath GetSubDirs cfg ex visit cur flagDepth
  = inr entries →
  (∀ s, s ∈ visit → s ≠ cur →
     entries !! (Config.TmuxSessionPrefix cfg +:+ s) = Some s)
  ∧ (∀ k, (∀ s, s ∈ visit → s ≠ cur → Config.TmuxSessionPrefix cfg +:+ s ≠ k) →
       entries !! k = nameEntries cur ex st ∅ !! k)
  ∧ (∀ s, s ∈ visit → s ≠ cur →
       is_Some (nameEntries cur ex st ∅ !! (Config.TmuxSessionPrefix cfg +:+ s))
       ↔ shouldSkipEntry (Config.TmuxSessionPrefix cfg +:+ s) cur ex = false
         ∧ ∃ info, info ∈ allPaths st
                   ∧ createDisplayName info (pathsByBaseName st)
                     = Config.TmuxSessionPrefix cfg +:+ s).
Proof.
  intros Hst Hbuild.
  destruct (buildDirectoryEntries_returns ResolvePath GetSubDirs cfg
              ex visit cur flagDepth) as (st' & _ & Hst' & Heq).
  rewrite Hst in Hst'. injection Hst' as <-.
  rewrite Heq in Hbuild. injection Hbuild as <-.
  split; [|split].
  - intros s Hin Hne. by apply addSessions_lookup_session.
  - intros k Hk. by apply addSessions_lookup_other.
  - intros s _ _. rewrite nameEntries_last, lookup_empty.
    destruct (last (filter _ (allPaths st))) as [info|] eqn:Hlast.
    + apply last_Some_elem_of, list_elem_of_filter in Hlast as [Hname Hin].
      destruct (shouldSkipEntry _ cur ex).
      * split; [by intros [? [=]]|by intros [[=] _]].
      * split; [eauto|by eexists].
    + apply last_None in Hlast. split; [by intros [? [=]]|].
      intros (_ & info & Hin & Hname).
      assert (info ∈ filter (λ info, createDisplayName info (pathsByBaseName st)
                                     = Config.TmuxSessionPrefix cfg +:+ s)
                       (allPaths st)) as Hfil
        by (by apply list_elem_of_filter).
      rewrite Hlast in Hfil. by apply elem_of_nil in Hfil.
Qed.

(** C3 (as amended): no directory entry is stored under the current
    session's name, and the session loop adds no entry for the current
    session: under the session prefix followed by the current name the
    table holds what the naming loop left, and an entry whose value is the
    current name was stored by the naming loop.  The current session's name
    is a key of the table exactly when it is the session prefix followed by
    the name of another live session, whose entry it then is. *)
Theorem current_session_is_no_key ex visit cur flagDepth st entries :
  collectPaths ResolvePath GetSubDirs cfg (buildIgnoreSet ResolvePath cfg)
    cur flagDepth noPaths = inr (tt, st) →
  buildDirectoryEntries ResolvePath GetSubDirs cfg ex visit cur flagDepth
  = inr entries →
  nameEntries cur ex st ∅ !! cur = None
  ∧ entries !! (Config.TmuxSessionPrefix cfg +:+ cur)
    = nameEntries cur ex st ∅ !! (Config.TmuxSessionPrefix cfg +:+ cur)
  ∧ (∀ k, entries !! k = Some cur → nameEntries cur ex st ∅ !! k = Some cur)
  ∧ (∀ v, entries !! cur = Some v
          ↔ v ∈ visit ∧ v ≠ cur ∧ Config.TmuxSessionPrefix cfg +:+ v = cur).
Proof.
  intros Hst Hbuild.
  destruct (buildDirectoryEntries_returns ResolvePath GetSubDirs cfg
              ex visit cur flagDepth) as (st' & _ & Hst' & Heq).
  rewrite Hst in Hst'. injection Hst' as <-.
  rewrite Heq in Hbuild. injection Hbuild as <-.
  assert (nameEntries cur ex st ∅ !! cur = None) as Hdir.
  { destruct (nameEntries cur ex st ∅ !! cur) as [v|] eqn:Hv; [|done].
    apply nameEntries_lookup in Hv as [Hv|(info & _ & _ & _ & Hskip)].
    - by rewrite lookup_empty in Hv.
    - unfold shouldSkipEntry in Hskip.
      by rewrite bool_decide_eq_true_2 in Hskip. }
  split; [done|]. split; [|split].
  - apply addSessions_lookup_other. intros s _ Hne Heqk.
    by apply (inj _) in Heqk.
  - intros k Hk. by apply addSessions_lookup in Hk as [(_ & ? & _)|[_ ?]].
  - intros v. split.
    + intros Hv. apply addSessions_lookup in Hv as [(? & ? & ?)|[_ Hv]]; [done|].
      by rewrite Hdir in Hv.
    + intros (Hin & Hne & <-). by apply addSessions_lookup_session.
Qed.

(** C4: a path to which a configured ignore path resolves is never
    recorded as a candidate, from whatever scan root or entry directory it
    is reached, and no directory entry of the table has it as value.  The
    only entry of the returned table that can show the same string as value
    is the entry of a live session that bears it as its name, under that
    session's key. *)
Theorem ignored_path_is_no_value dir p ex visit cur flagDepth st entries :
  dir ∈ Config.IgnoreDirs cfg →
  ResolvePath dir = Some p →
  collectPaths ResolvePath GetSubDirs cfg (buildIgnoreSet ResolvePath cfg)
    cur flagDepth noPaths = inr (tt, st) →
  buildDirectoryEntries ResolvePath GetSubDirs cfg ex visit cur flagDepth
  = inr entries →
  (∀ info, info ∈ allPaths st → PathInfo.Path info ≠ p)
  ∧ (∀ k, nameEntries cur ex st ∅ !! k ≠ Some p)
  ∧ (∀ k, entries !! k = Some p →
          p ∈ visit ∧ p ≠ cur ∧ k = Config.TmuxSessionPrefix cfg +:+ p).
Proof.
  intros Hdir Hres Hst Hbuild.
  destruct (buildDirectoryEntries_returns ResolvePath GetSubDirs cfg
              ex visit cur flagDepth) as (st' & [Hadm _] & Hst' & Heq).
  rewrite Hst in Hst'. injection Hst' as <-.
  rewrite Heq in Hbuild. injection Hbuild as <-.
  rewrite Forall_forall in Hadm.
  assert (∀ info, info ∈ allPaths st → PathInfo.Path info ≠ p) as Hrec.
  { intros info Hin <-. destruct (Hadm info Hin) as [Hign _].
    apply Hign, buildIgnoreSet_spec. eauto. }
  assert (∀ k, nameEntries cur ex st ∅ !! k ≠ Some p) as Hnamed.
  { intros k Hk.
    apply nameEntries_lookup in Hk as [Hk|(info & Hin & _ & Hp & _)].
    - by rewrite lookup_empty in Hk.
    - by apply (Hrec info Hin). }
  split; [done|]. split; [done|].
  intros k Hk. apply addSessions_lookup in Hk as [?|[_ Hk]]; [done|].
  by apply Hnamed in Hk.
Qed.

End table_keys.

(** ** More about the selection *)

Lemma prefix_append p s : String.prefix p (p +:+ s) = true.
Proof.
  induction p as [|c p IH]; simpl; [by destruct s|].
  by destruct (ascii_dec c c).
Qed.

Lemma substring_whole s : String.substring 0 (String.length s) s = s.
Proof. induction s as [|c s IH]; simpl; [done|]. by rewrite IH. Qed.

(** Cutting the prefix off a prefixed name gives the name back. *)
Lemma CutPrefix_append p s : CutPrefix (p +:+ s) p = (s, true).
Proof.
  unfold CutPrefix, HasPrefix. rewrite prefix_append. f_equal.
  rewrite length_append.
  replace (String.length p + String.length s - String.length p)%nat
    with (String.length s) by lia.
  induction p as [|c p IH]; simpl; [apply substring_whole|done].
Qed.

(** X11: the names handed to the picker do not depend on the order in
    which the keys of the table were collected: any two enumerations of the
    same names are sorted to the same sequence. *)
Theorem picker_names_independent_of_range_order tmuxSessionPrefix names1 names2 :
  names1 ≡ₚ names2 →
  sortNames tmuxSessionPrefix names1 = sortNames tmuxSessionPrefix names2.
Proof.
  intros Hperm. apply sortNames_unique.
  - apply (Sorted_merge_sort (namesLe tmuxSessionPrefix)).
  - rewrite <-Hperm. apply merge_sort_Permutation.
Qed.

(** X12: the names handed to the picker are the keys of the table, each
    once. *)
Theorem picker_names_are_the_keys tmuxSessionPrefix
    (entries : gmap string string) keys :
  rangeOrder entries keys →
  NoDup (sortNames tmuxSessionPrefix keys)
  ∧ ∀ name, name ∈ sortNames tmuxSessionPrefix keys ↔ is_Some (entries !! name).
Proof.
  unfold rangeOrder. intros Hkeys.
  assert (sortNames tmuxSessionPrefix keys ≡ₚ (map_to_list entries).*1) as Hperm.
  { rewrite <-Hkeys. apply merge_sort_Permutation. }
  split.
  - rewrite Hperm. apply NoDup_fst_map_to_list.
  - intros name. rewrite Hperm, list_elem_of_fmap. split.
    + intros ([k v] & -> & Hin). apply elem_of_map_to_list in Hin. by exists v.
    + intros [v Hv]. exists (name, v). split; [done|].
      by apply elem_of_map_to_list.
Qed.

Section selection_more.

Variable ResolvePath : string → option string.
Variable GetSubDirs : Z → string → option (list string).
Variable cfg : Config.t.
Variable SelectWithFzf : list string → string * option string.
Variable CreateAndSwitchSession : Session.t → option string.
Variable rangeKeys : gmap string string → list string.

(** X13: picking the entry of a live session hands
    [tmux.CreateAndSwitchSession] a session whose name is the session's
    name, the prefix cut off again, and whose path is that name too: the
    value the table holds for a live session. *)
Theorem picked_live_session ex visit cur flagDepth entries s :
  buildDirectoryEntries ResolvePath GetSubDirs cfg ex visit cur flagDepth
  = inr entries →
  s ∈ visit → s ≠ cur → s ≠ "" →
  SelectWithFzf (sortNames (Config.TmuxSessionPrefix cfg) (rangeKeys entries))
  = (Config.TmuxSessionPrefix cfg +:+ s, None) →
  let session := {| Session.Name := s; Session.Path := s |} in
  run ResolvePath GetSubDirs cfg SelectWithFzf CreateAndSwitchSession rangeKeys
    ex visit cur flagDepth []
  = Return (Some session) (failedToSwitch <$> CreateAndSwitchSession session).
Proof.
  intros Hbuild Hin Hne Hs Hpick session.
  assert (entries !! (Config.TmuxSessionPrefix cfg +:+ s) = Some s) as Hk.
  { destruct (buildDirectoryEntries_returns ResolvePath GetSubDirs cfg
                ex visit cur flagDepth) as (st & _ & _ & Heq).
    rewrite Heq in Hbuild. injection Hbuild as <-.
    by apply addSessions_lookup_session. }
  assert (Config.TmuxSessionPrefix cfg +:+ s ≠ "") as Hkey.
  { intros Heq. apply (f_equal String.length) in Heq.
    rewrite length_append in Heq. destruct s; [done|]. simpl in Heq. lia. }
  unfold run, PreRunE, RunE. rewrite Hbuild. simpl.
  rewrite Hpick. rewrite decide_False by done.
  unfold resolveChoice. rewrite Hk, CutPrefix_append. simpl.
  unfold launch. fold session. by destruct (CreateAndSwitchSession session).
Qed.

(** X14: for a name that is a key of the table, other than init and edit,
    giving it as the positional argument and picking it with the picker
    launch the same session: the name with the session prefix cut off, and
    the value of the table as path. *)
Theorem positional_and_picked_agree ex visit cur flagDepth entries choice path :
  buildDirectoryEntries ResolvePath GetSubDirs cfg ex visit cur flagDepth
  = inr entries →
  entries !! choice = Some path →
  choice ≠ "" → choice ≠ "init" → choice ≠ "edit" →
  SelectWithFzf (sortNames (Config.TmuxSessionPrefix cfg) (rangeKeys entries))
  = (choice, None) →
  let session :=
    {| Session.Name := (CutPrefix choice (Config.TmuxSessionPrefix cfg)).1;
       Session.Path := path |} in
  run ResolvePath GetSubDirs cfg SelectWithFzf CreateAndSwitchSession rangeKeys
    ex visit cur flagDepth [choice]
  = Return (Some session) (failedToSwitch <$> CreateAndSwitchSession session)
  ∧ run ResolvePath GetSubDirs cfg SelectWithFzf CreateAndSwitchSession rangeKeys
      ex visit cur flagDepth []
    = Return (Some session) (failedToSwitch <$> CreateAndSwitchSession session).
Proof.
  intros Hbuild Hk Hne Hinit Hedit Hpick session. unfold run, PreRunE.
  rewrite (decide_False (P := choice = "init")) by done.
  rewrite (decide_False (P := choice = "edit")) by done.
  unfold RunE. rewrite Hbuild. split.
  - rewrite decide_False by done. unfold resolveChoice. rewrite Hk.
    unfold launch. fold session. by destruct (CreateAndSwitchSession session).
  - rewrite decide_True by done. rewrite Hpick. rewrite decide_False by done.
    unfold resolveChoice. rewrite Hk.
    unfold launch. fold session. by destruct (CreateAndSwitchSession session).
Qed.

(** X15: without positional argument, a session is launched only for a
    key of the table: its path is the value under the picked key and its
    name is the picked key with the session prefix cut off. *)
Theorem picked_launch_is_an_entry ex visit cur flagDepth entries session err :
  buildDirectoryEntries ResolvePath GetSubDirs cfg ex visit cur flagDepth
  = inr entries →
  run ResolvePath GetSubDirs cfg SelectWithFzf CreateAndSwitchSession rangeKeys
    ex visit cur flagDepth []
  = Return (Some session) err →
  ∃ choice,
    SelectWithFzf (sortNames (Config.TmuxSessionPrefix cfg) (rangeKeys entries))
    = (choice, None)
    ∧ entries !! choice = Some (Session.Path session)
    ∧ Session.Name session = (CutPrefix choice (Config.TmuxSessionPrefix cfg)).1.
Proof.
  intros Hbuild. unfold run, PreRunE, RunE. rewrite Hbuild. simpl.
  destruct (SelectWithFzf _) as [choice [text|]] eqn:Hpick.
  { by destruct (decide (text = "user cancelled")). }
  destruct (decide (choice = "")); [done|].
  unfold resolveChoice. destruct (entries !! choice) as [path|] eqn:Hk; simpl.
  - unfold launch. intros Hrun. exists choice.
    destruct (CreateAndSwitchSession _); injection Hrun as <- _; done.
  - done.
Qed.

(** X16: the command ends the process through [cobra.CheckErr] only when
    the picker returned an error other than the cancellation; the check
    after [buildDirectoryEntries] never fires. *)
Theorem exit_only_on_picker_error ex visit cur flagDepth args err :
  run ResolvePath GetSubDirs cfg SelectWithFzf CreateAndSwitchSession rangeKeys
    ex visit cur flagDepth args
  = Exit err →
  ∃ entries choice text,
    buildDirectoryEntries ResolvePath GetSubDirs cfg ex visit cur flagDepth
    = inr entries
    ∧ SelectWithFzf (sortNames (Config.TmuxSessionPrefix cfg) (rangeKeys entries))
      = (choice, Some text)
    ∧ text ≠ "user cancelled"
    ∧ err = errorString text.
Proof.
  unfold run. destruct (PreRunE args); [done|]. unfold RunE.
  destruct (buildDirectoryEntries_returns ResolvePath GetSubDirs cfg
              ex visit cur flagDepth) as (st & _ & _ & ->).
  set (entries := addSessions cfg cur visit (nameEntries cur ex st ∅)).
  assert (∀ c, resolveChoice cfg CreateAndSwitchSession entries args c ≠ Exit err)
    as Hresolve.
  { intros c. unfold resolveChoice, launch.
    destruct (entries !! c); [by destruct (CreateAndSwitchSession _)|].
    destruct (decide (length args = 0%nat)); [done|].
    by destruct (CreateAndSwitchSession _). }
  destruct (decide (_ = "")); [|by intros ?%Hresolve].
  destruct (SelectWithFzf _) as [choice [text|]] eqn:Hpick.
  - destruct (decide (text = "user cancelled")); [done|].
    intros [= <-]. by exists entries, choice, text.
  - destruct (decide (choice = "")); [done|]. by intros ?%Hresolve.
Qed.

(** X17: a table key init or edit cannot be reached with the positional
    argument: [PreRunE] returns its error whatever the table holds, although
    picking the same key with the picker launches its session. *)
Theorem reserved_key_only_by_picker ex visit cur flagDepth entries choice path :
  buildDirectoryEntries ResolvePath GetSubDirs cfg ex visit cur flagDepth
  = inr entries →
  choice = "init" ∨ choice = "edit" →
  entries !! choice = Some path →
  SelectWithFzf (sortNames (Config.TmuxSessionPrefix cfg) (rangeKeys entries))
  = (choice, None) →
  let session :=
    {| Session.Name := (CutPrefix choice (Config.TmuxSessionPrefix cfg)).1;
       Session.Path := path |} in
  run ResolvePath GetSubDirs cfg SelectWithFzf CreateAndSwitchSession rangeKeys
    ex visit cur flagDepth [choice]
  = Return None (Some (unknownCommand choice choice))
  ∧ run ResolvePath GetSubDirs cfg SelectWithFzf CreateAndSwitchSession rangeKeys
      ex visit cur flagDepth []
    = Return (Some session) (failedToSwitch <$> CreateAndSwitchSession session).
Proof.
  intros Hbuild Hchoice Hk Hpick session. split.
  - unfold run. by destruct Hchoice as [-> | ->].
  - unfold run, PreRunE, RunE. rewrite Hbuild. simpl. rewrite Hpick.
    rewrite decide_False by (by destruct Hchoice as [-> | ->]).
    unfold resolveChoice. rewrite Hk.
    unfold launch. fold session. by destruct (CreateAndSwitchSession session).
Qed.

(** X18: with the empty string as positional argument the picker is used,
    and the picked name is not checked against the table: a picked name
    that is no key is launched as a session with the empty path. *)
Theorem empty_positional_skips_membership_check ex visit cur flagDepth entries choice :
  buildDirectoryEntries ResolvePath GetSubDirs cfg ex visit cur flagDepth
  = inr entries →
  SelectWithFzf (sortNames (Config.TmuxSessionPrefix cfg) (rangeKeys entries))
  = (choice, None) →
  choice ≠ "" →
  entries !! choice = None →
  let session :=
    {| Session.Name := (CutPrefix choice (Config.TmuxSessionPrefix cfg)).1;
       Session.Path := "" |} in
  run ResolvePath GetSubDirs cfg SelectWithFzf CreateAndSwitchSession rangeKeys
    ex visit cur flagDepth [""]
  = Return (Some session) (failedToSwitch <$> CreateAndSwitchSession session).
Proof.
  intros Hbuild Hpick Hne Hk session.
  unfold run, PreRunE, RunE. rewrite Hbuild. simpl. rewrite Hpick.
  rewrite decide_False by done.
  unfold resolveChoice. rewrite Hk. simpl.
  unfold launch. fold session. by destruct (CreateAndSwitchSession session).
Qed.

End selection_more.

(** ** The checks before the command runs *)

(** [isConfigCommand] holds exactly when the command or one of its
    ancestors is named config. *)
Lemma isConfigCommand_lineage cmd :
  isConfigCommand cmd = true ↔ "config" ∈ lineage cmd.
Proof.
  induction cmd as [name|name parent IH]; simpl.
  - destruct (decide (name = "config")) as [->|Hne].
    + split; [intros _; by left|done].
    + split; [done|]. intros [?|[]%elem_of_nil]%elem_of_cons. done.
  - destruct (decide (name = "config")) as [->|Hne].
    + split; [intros _; by left|done].
    + rewrite IH. split; [by right|].
      intros [?|?]%elem_of_cons; done.
Qed.

Section checks_more.

Variable LookPath : string → option string.
Variable ConfigFileUsed : string.
Variable settings : Settings.t.

(** X19: for the config command and the commands below it,
    [PersistentPreRunE] returns no error and writes no warning, whether or
    not the external tools are found and whatever the configuration is. *)
Theorem config_commands_bypass_checks cmd :
  "config" ∈ lineage cmd →
  PersistentPreRunE LookPath ConfigFileUsed settings cmd = ([], None).
Proof.
  intros Hin. apply isConfigCommand_lineage in Hin.
  unfold PersistentPreRunE. by rewrite Hin.
Qed.

(** X20: for every other command, [PersistentPreRunE] returns no error
    exactly when tmux and fzf are both found, a configuration file was
    read, at least one scan directory or entry directory is configured and
    the session layout has at least one window.  The editor and the
    fallback session play no part. *)
Theorem checks_pass_iff cmd :
  "config" ∉ lineage cmd →
  (PersistentPreRunE LookPath ConfigFileUsed settings cmd).2 = None
  ↔ is_Some (LookPath "tmux") ∧ is_Some (LookPath "fzf")
    ∧ ConfigFileUsed ≠ ""
    ∧ (Config.ScanDirs (Settings.Base settings) ≠ []
       ∨ Config.EntryDirs (Settings.Base settings) ≠ [])
    ∧ Settings.SessionLayoutWindows settings ≠ [].
Proof.
  intros Hcmd. rewrite <-isConfigCommand_lineage in Hcmd.
  apply not_true_is_false in Hcmd.
  unfold PersistentPreRunE, verifyExternalUtils, validateConfig.
  rewrite Hcmd.
  destruct (LookPath "tmux") as [tmux|], (LookPath "fzf") as [fzf|]; simpl;
    try (split; [done|]; intros (Ht & Hf & _);
         (by destruct Ht as [? [=]]) || (by destruct Hf as [? [=]])).
  destruct (decide (ConfigFileUsed = "")) as [Hfile|Hfile]; simpl.
  { split; [done|]. by intros (_ & _ & ? & _). }
  destruct (Config.ScanDirs (Settings.Base settings)) as [|sd sds];
    destruct (Config.EntryDirs (Settings.Base settings)) as [|e es];
    destruct (Settings.SessionLayoutWindows settings) as [|w ws]; simpl;
    (split; [try done; intros _; repeat split; eauto|]);
    try (by intros (_ & _ & _ & [?|?] & ?)).
Qed.

(** X21: [verifyExternalUtils] reports the tools among tmux and fzf that
    [exec.LookPath] does not find, in this order and joined by a comma,
    and returns no error when both are found. *)
Theorem verifyExternalUtils_reports_missing :
  verifyExternalUtils LookPath
  = match filter (λ tool, LookPath tool = None) ["tmux"; "fzf"] with
    | [] => None
    | missing =>
        Some (errorString ("missing required tools: " +:+ Join missing ", "))
    end.
Proof.
  unfold verifyExternalUtils.
  rewrite filter_cons, filter_cons, filter_nil.
  destruct (LookPath "tmux"), (LookPath "fzf"); reflexivity.
Qed.

(** [warnOnConfigIssues] writes nothing exactly when the editor, the
    name and the path of the fallback session are set and the fallback
    layout has a window. *)
Lemma no_warning_iff :
  warnOnConfigIssues settings = []
  ↔ Settings.Editor settings ≠ ""
    ∧ FallbackSession.Name (Settings.Fallback settings) ≠ ""
    ∧ FallbackSession.Path (Settings.Fallback settings) ≠ ""
    ∧ FallbackSession.Windows (Settings.Fallback settings) ≠ [].
Proof.
  unfold warnOnConfigIssues.
  destruct (decide (Settings.Editor settings = ""));
    destruct (decide (FallbackSession.Name (Settings.Fallback settings) = ""));
    destruct (decide (FallbackSession.Path (Settings.Fallback settings) = ""));
    destruct (FallbackSession.Windows (Settings.Fallback settings)); simpl;
    split; try done; try (by intros (? & ? & ? & ?)).
Qed.

End checks_more.

(** ** The command and the order of Go's maps *)

(** X22: the outcome of the command does not depend on the order in which
    Go visits its maps: with any two orders of visiting the live sessions
    and any two ways of enumerating the keys of a table, [PreRunE] followed
    by [RunE] gives the same outcome. *)
Theorem outcome_independent_of_map_order ResolvePath GetSubDirs cfg
    SelectWithFzf CreateAndSwitchSession rangeKeys1 rangeKeys2
    ex visit1 visit2 cur flagDepth args :
  rangeOrder ex visit1 → rangeOrder ex visit2 →
  (∀ entries, rangeOrder entries (rangeKeys1 entries)) →
  (∀ entries, rangeOrder entries (rangeKeys2 entries)) →
  run ResolvePath GetSubDirs cfg SelectWithFzf CreateAndSwitchSession rangeKeys1
    ex visit1 cur flagDepth args
  = run ResolvePath GetSubDirs cfg SelectWithFzf CreateAndSwitchSession rangeKeys2
      ex visit2 cur flagDepth args.
Proof.
  unfold rangeOrder. intros Hv1 Hv2 Hk1 Hk2. unfold run.
  destruct (PreRunE args); [done|]. unfold RunE.
  destruct (buildDirectoryEntries_returns ResolvePath GetSubDirs cfg
              ex visit1 cur flagDepth) as (st1 & _ & Hst1 & ->).
  destruct (buildDirectoryEntries_returns ResolvePath GetSubDirs cfg
              ex visit2 cur flagDepth) as (st2 & _ & Hst2 & ->).
  rewrite Hst1 in Hst2. injection Hst2 as <-.
  rewrite (addSessions_permutation cfg cur visit1 visit2) by (by rewrite Hv1, Hv2).
  set (entries := addSessions cfg cur visit2 (nameEntries cur ex st1 ∅)).
  assert (sortNames (Config.TmuxSessionPrefix cfg) (rangeKeys1 entries)
          = sortNames (Config.TmuxSessionPrefix cfg) (rangeKeys2 entries)) as ->.
  { apply sortNames_unique.
    - apply (Sorted_merge_sort (namesLe (Config.TmuxSessionPrefix cfg))).
    - rewrite (Hk2 entries), <-(Hk1 entries). apply merge_sort_Permutation. }
  done.
Qed.

(** ** The further facts on concrete inputs *)

Lemma directory_entry_is_last_of_its_name_witness :
  let entries : gmap string string :=
    {[ "foo (x)" := "/b/x/foo"; "TMUX/mail" := "mail" ]} in
  let st := {| allPaths := [plain "/a/x/foo"; plain "/b/x/foo"];
               pathsByBaseName := {[ "foo" := [plain "/a/x/foo"; plain "/b/x/foo"] ]} |} in
  entries !! "foo (x)"
  = if shouldSkipEntry "foo (x)" "" (sessionSet ["mail"]) then None
    else PathInfo.Path
           <$> last (filter (λ info, createDisplayName info (pathsByBaseName st)
                                     = "foo (x)") (allPaths st)).
Proof.
  intros entries st.
  apply (directory_entry_is_last_of_its_name
           (resolveAmong ["/a/x/foo"; "/b/x/foo"]) (subDirsFrom [])
           (mkCfg [] ["/a/x/foo"; "/b/x/foo"] [])
           (sessionSet ["mail"]) ["mail"] "" 0 st entries "foo (x)").
  - by vm_compute.
  - by vm_compute.
  - intros s Hin _. apply list_elem_of_singleton in Hin as ->. by vm_compute.
Defined.

Lemma live_sessions_are_listed_witness :
  ({[ "a" := "/p/a"; "TMUX/mail" := "mail" ]} : gmap string string)
    !! "TMUX/mail" = Some "mail".
Proof.
  apply (live_sessions_are_listed (resolveAmong ["/p/a"]) (subDirsFrom [])
           (mkCfg [] ["/p/a"] []) (sessionSet ["mail"; "work"]) ["mail"; "work"]
           "work" 0 _ "mail").
  - by vm_compute.
  - by left.
  - done.
Defined.

Lemma entries_are_sessions_or_admitted_paths_witness :
  let resolve := resolveAmong ["/p/a"] in
  let cfg := mkCfg [] ["/p/a"] [] in
  ("/p/a" ∈ ["mail"] ∧ "/p/a" ≠ "" ∧ "a" = Config.TmuxSessionPrefix cfg +:+ "/p/a")
  ∨ ((∃ path, resolve path = Some "/p/a")
     ∧ ("/p/a" ∉ buildIgnoreSet resolve cfg)
     ∧ filepath.Base "/p/a" ≠ ""
     ∧ "a" ≠ ""
     ∧ index (sessionSet ["mail"]) "a" = false).
Proof.
  intros resolve cfg.
  apply (entries_are_sessions_or_admitted_paths resolve (subDirsFrom []) cfg
           (sessionSet ["mail"]) ["mail"] "" 0
           {[ "a" := "/p/a"; "TMUX/mail" := "mail" ]} "a" "/p/a").
  - by vm_compute.
  - by vm_compute.
Defined.

Lemma failed_scan_is_skipped_witness :
  let resolve := resolveAmong ["/proj"; "/p/a"] in
  let cfg := mkCfg [] ["/p/a"] [] in
  buildDirectoryEntries resolve (subDirsFrom [])
    (withScanDirs cfg ([] ++ scanRoot "/proj" :: [])) ∅ [] "" 0
  = buildDirectoryEntries resolve (subDirsFrom [])
      (withScanDirs cfg ([] ++ [])) ∅ [] "" 0.
Proof.
  intros resolve cfg.
  apply (failed_scan_is_skipped resolve (subDirsFrom []) cfg
           [] (scanRoot "/proj") [] ∅ [] "" 0 "/proj"); reflexivity.
Defined.

Lemma dropped_entry_dir_leaves_no_trace_witness :
  let resolve := resolveAmong ["/p/a"] in
  let cfg := mkCfg [] [] [] in
  buildDirectoryEntries resolve (subDirsFrom [])
    (withEntryDirs cfg (["/p/a"] ++ "/missing" :: [])) ∅ [] "" 0
  = buildDirectoryEntries resolve (subDirsFrom [])
      (withEntryDirs cfg (["/p/a"] ++ [])) ∅ [] "" 0.
Proof.
  intros resolve cfg.
  apply (dropped_entry_dir_leaves_no_trace resolve (subDirsFrom []) cfg
           ["/p/a"] "/missing" [] ∅ [] "" 0).
  left. reflexivity.
Defined.

Lemma addPath_records_outside_tmux_witness :
  addPath (resolveAmong ["/p/a"]) ∅ "" "/p/a" "W" noPaths
  = inr (tt,
         {| allPaths := allPaths noPaths
                        ++ [{| PathInfo.Path := "/p/a"; PathInfo.Prefix := "W" |}];
            pathsByBaseName :=
              <[filepath.Base "/p/a" :=
                  default [] (pathsByBaseName noPaths !! filepath.Base "/p/a")
                  ++ [{| PathInfo.Path := "/p/a"; PathInfo.Prefix := "W" |}]]>
                (pathsByBaseName noPaths) |}).
Proof.
  apply (addPath_records_outside_tmux (resolveAmong ["/p/a"]) ∅ "/p/a" "W" "/p/a"
           noPaths).
  - reflexivity.
  - apply not_elem_of_empty.
Defined.

Lemma repeated_base_name_is_qualified_witness :
  let st := {| allPaths := [plain "/p/a"; plain "/p/a"];
               pathsByBaseName := {[ "a" := [plain "/p/a"; plain "/p/a"] ]} |} in
  createDisplayName (plain "/p/a") (pathsByBaseName st)
  = if decide (PathInfo.Prefix (plain "/p/a") ≠ "")
    then PathInfo.Prefix (plain "/p/a") +:+ "/"
         +:+ filepath.Base (PathInfo.Path (plain "/p/a")) +:+ " ("
         +:+ filepath.Base (filepath.Dir (PathInfo.Path (plain "/p/a"))) +:+ ")"
    else filepath.Base (PathInfo.Path (plain "/p/a")) +:+ " ("
         +:+ filepath.Base (filepath.Dir (PathInfo.Path (plain "/p/a"))) +:+ ")".
Proof.
  intros st.
  apply (repeated_base_name_is_qualified (resolveAmong ["/p/a"]) (subDirsFrom [])
           (mkCfg [] ["/p/a"; "/p/a"] []) ∅ "" 0 st 0%nat 1%nat
           (plain "/p/a") (plain "/p/a")).
  - by vm_compute.
  - done.
  - reflexivity.
  - reflexivity.
  - reflexivity.
Defined.

Lemma picker_names_independent_of_range_order_witness :
  sortNames "TMUX/" ["a"; "TMUX/mail"] = sortNames "TMUX/" ["TMUX/mail"; "a"].
Proof.
  apply picker_names_independent_of_range_order.
  apply (bool_decide_unpack _). by vm_compute.
Defined.

Lemma picker_names_are_the_keys_witness :
  let entries : gmap string string := {[ "a" := "/p/a"; "TMUX/mail" := "mail" ]} in
  NoDup (sortNames "TMUX/" ["TMUX/mail"; "a"])
  ∧ ∀ name, name ∈ sortNames "TMUX/" ["TMUX/mail"; "a"] ↔ is_Some (entries !! name).
Proof.
  intros entries. apply picker_names_are_the_keys.
  unfold rangeOrder. apply (bool_decide_unpack _). by vm_compute.
Defined.

Lemma picked_live_session_witness :
  let pick : list string → string * option string := λ _, ("TMUX/mail", None) in
  let create : Session.t → option string := λ _, None in
  run (resolveAmong ["/p/a"]) (subDirsFrom []) (mkCfg [] ["/p/a"] [])
    pick create keysOf (sessionSet ["mail"]) ["mail"] "" 0 []
  = Return (Some {| Session.Name := "mail"; Session.Path := "mail" |}) None.
Proof.
  intros pick create.
  apply (picked_live_session (resolveAmong ["/p/a"]) (subDirsFrom [])
           (mkCfg [] ["/p/a"] []) pick create keysOf
           (sessionSet ["mail"]) ["mail"] "" 0
           {[ "a" := "/p/a"; "TMUX/mail" := "mail" ]} "mail").
  - by vm_compute.
  - by left.
  - done.
  - done.
  - reflexivity.
Defined.

Lemma positional_and_picked_agree_witness :
  let pick : list string → string * option string := λ _, ("a", None) in
  let create : Session.t → option string := λ _, None in
  run (resolveAmong ["/p/a"]) (subDirsFrom []) (mkCfg [] ["/p/a"] [])
    pick create keysOf ∅ [] "" 0 ["a"]
  = Return (Some {| Session.Name := "a"; Session.Path := "/p/a" |}) None
  ∧ run (resolveAmong ["/p/a"]) (subDirsFrom []) (mkCfg [] ["/p/a"] [])
      pick create keysOf ∅ [] "" 0 []
    = Return (Some {| Session.Name := "a"; Session.Path := "/p/a" |}) None.
Proof.
  intros pick create.
  apply (positional_and_picked_agree (resolveAmong ["/p/a"]) (subDirsFrom [])
           (mkCfg [] ["/p/a"] []) pick create keysOf ∅ [] "" 0
           {[ "a" := "/p/a" ]} "a" "/p/a"); try done; by vm_compute.
Defined.

Lemma picked_launch_is_an_entry_witness :
  let pick : list string → string * option string := λ _, ("a", None) in
  ∃ choice,
    pick (sortNames "TMUX/" (keysOf {[ "a" := "/p/a" ]})) = (choice, None)
    ∧ ({[ "a" := "/p/a" ]} : gmap string string) !! choice = Some "/p/a"
    ∧ "a" = (CutPrefix choice "TMUX/").1.
Proof.
  intros pick.
  apply (picked_launch_is_an_entry (resolveAmong ["/p/a"]) (subDirsFrom [])
           (mkCfg [] ["/p/a"] []) pick (λ _, None) keysOf ∅ [] "" 0
           {[ "a" := "/p/a" ]} {| Session.Name := "a"; Session.Path := "/p/a" |}
           None).
  - by vm_compute.
  - by vm_compute.
Defined.

Lemma exit_only_on_picker_error_witness :
  let pick : list string → string * option string := λ _, ("", Some "exit status 2") in
  ∃ entries choice text,
    buildDirectoryEntries (resolveAmong ["/p/a"]) (subDirsFrom [])
      (mkCfg [] ["/p/a"] []) ∅ [] "" 0 = inr entries
    ∧ pick (sortNames "TMUX/" (keysOf entries)) = (choice, Some text)
    ∧ text ≠ "user cancelled"
    ∧ errorString "exit status 2" = errorString text.
Proof.
  intros pick.
  apply (exit_only_on_picker_error (resolveAmong ["/p/a"]) (subDirsFrom [])
           (mkCfg [] ["/p/a"] []) pick (λ _, None) keysOf ∅ [] "" 0 []
           (errorString "exit status 2")).
  by vm_compute.
Defined.

Lemma reserved_key_only_by_picker_witness :
  let pick : list string → string * option string := λ _, ("init", None) in
  let create : Session.t → option string := λ _, None in
  run (resolveAmong ["/p/init"]) (subDirsFrom []) (mkCfg [] ["/p/init"] [])
    pick create keysOf ∅ [] "" 0 ["init"]
  = Return None (Some (unknownCommand "init" "init"))
  ∧ run (resolveAmong ["/p/init"]) (subDirsFrom []) (mkCfg [] ["/p/init"] [])
      pick create keysOf ∅ [] "" 0 []
    = Return (Some {| Session.Name := "init"; Session.Path := "/p/init" |}) None.
Proof.
  intros pick create.
  apply (reserved_key_only_by_picker (resolveAmong ["/p/init"]) (subDirsFrom [])
           (mkCfg [] ["/p/init"] []) pick create keysOf ∅ [] "" 0
           {[ "init" := "/p/init" ]} "init" "/p/init").
  - by vm_compute.
  - by left.
  - by vm_compute.
  - reflexivity.
Defined.

Lemma empty_positional_skips_membership_check_witness :
  let pick : list string → string * option string := λ _, ("ghost", None) in
  let create : Session.t → option string := λ _, None in
  run (resolveAmong ["/p/a"]) (subDirsFrom []) (mkCfg [] ["/p/a"] [])
    pick create keysOf ∅ [] "" 0 [""]
  = Return (Some {| Session.Name := "ghost"; Session.Path := "" |}) None.
Proof.
  intros pick create.
  apply (empty_positional_skips_membership_check (resolveAmong ["/p/a"])
           (subDirsFrom []) (mkCfg [] ["/p/a"] []) pick create keysOf ∅ [] "" 0
           {[ "a" := "/p/a" ]} "ghost").
  - by vm_compute.
  - reflexivity.
  - done.
  - by vm_compute.
Defined.

Lemma config_commands_bypass_checks_witness :
  let settings :=
    {| Settings.Base := mkCfg [] [] [];
       Settings.Editor := "";
       Settings.Fallback := {| FallbackSession.Name := ""; FallbackSession.Path := "";
                               FallbackSession.Windows := [] |};
       Settings.SessionLayoutWindows := [] |} in
  PersistentPreRunE (λ _, None) "" settings
    (Command.sub "init" (Command.sub "config" (Command.root "tms")))
  = ([], None).
Proof.
  intros settings. apply config_commands_bypass_checks.
  simpl. right. by left.
Defined.

Lemma checks_pass_iff_witness :
  let settings :=
    {| Settings.Base := mkCfg [] ["/p/a"] [];
       Settings.Editor := "";
       Settings.Fallback := {| FallbackSession.Name := ""; FallbackSession.Path := "";
                               FallbackSession.Windows := [] |};
       Settings.SessionLayoutWindows := ["main"] |} in
  let lookPath : string → option string := λ tool, Some ("/usr/bin/" +:+ tool) in
  (PersistentPreRunE lookPath "/etc/tms/config.yaml" settings (Command.root "tms")).2
  = None
  ↔ is_Some (lookPath "tmux") ∧ is_Some (lookPath "fzf")
    ∧ "/etc/tms/config.yaml" ≠ ""
    ∧ (Config.ScanDirs (Settings.Base settings) ≠ []
       ∨ Config.EntryDirs (Settings.Base settings) ≠ [])
    ∧ Settings.SessionLayoutWindows settings ≠ [].
Proof.
  intros settings lookPath. apply checks_pass_iff.
  simpl. intros Hin. apply list_elem_of_singleton in Hin. done.
Defined.

Lemma outcome_independent_of_map_order_witness :
  let pick : list string → string * option string := λ names,
    (default "" (head names), None) in
  let create : Session.t → option string := λ _, None in
  run (resolveAmong ["/p/a"]) (subDirsFrom []) (mkCfg [] ["/p/a"] [])
    pick create keysOf (sessionSet ["mail"; "chat"]) ["mail"; "chat"] "" 0 []
  = run (resolveAmong ["/p/a"]) (subDirsFrom []) (mkCfg [] ["/p/a"] [])
      pick create (λ entries, reverse (keysOf entries))
      (sessionSet ["mail"; "chat"]) ["chat"; "mail"] "" 0 [].
Proof.
  intros pick create. apply outcome_independent_of_map_order.
  - unfold rangeOrder. apply (bool_decide_unpack _). by vm_compute.
  - unfold rangeOrder. apply (bool_decide_unpack _). by vm_compute.
  - intros entries. unfold rangeOrder, keysOf. reflexivity.
  - intros entries. unfold rangeOrder, keysOf. apply reverse_Permutation.
Defined.

Lemma live_entries_and_directory_entries_witness :
  let resolve := resolveAmong ["/w"; "/w/foo"] in
  let scan := subDirsFrom [("/w", ["/w/foo"])] in
  let cfg := mkCfg [{| ScanDir.Path := "/w"; ScanDir.Depth := None;
                       ScanDir.Alias := "TMUX" |}] [] [] in
  let ex := sessionSet ["foo"; "mail"] in
  let info := {| PathInfo.Path := "/w/foo"; PathInfo.Prefix := "TMUX" |} in
  let st := {| allPaths := [info]; pathsByBaseName := {[ "foo" := [info] ]} |} in
  let entries : gmap string string :=
    {[ "TMUX/foo" := "foo"; "TMUX/mail" := "mail" ]} in
  entries !! "TMUX/foo" = Some "foo"
  ∧ entries !! "TMUX/mail" = Some "mail"
  ∧ is_Some (nameEntries "" ex st ∅ !! "TMUX/foo")
  ∧ ¬ is_Some (nameEntries "" ex st ∅ !! "TMUX/mail").
Proof.
  intros resolve scan cfg ex info st entries.
  destruct (live_entries_and_directory_entries resolve scan cfg ex
              ["foo"; "mail"] "" 0 st entries) as (Hlive & _ & Hreplaced).
  - by vm_compute.
  - by vm_compute.
  - split; [apply (Hlive "foo"); [by left|done]|].
    split; [apply (Hlive "mail"); [by right; left|done]|].
    split.
    + apply (Hreplaced "foo"); [by left|done|].
      split; [by vm_compute|]. exists info. split; [by left|by vm_compute].
    + intros Hsome. apply (Hreplaced "mail") in Hsome as (_ & i & Hi & Hname);
        [|by right; left|done].
      apply list_elem_of_singleton in Hi as ->. by vm_compute in Hname.
Defined.

Lemma current_session_is_no_key_witness :
  let resolve := resolveAmong ["/p/work"; "/p/play"] in
  let cfg := mkCfg [] ["/p/work"; "/p/play"] [] in
  let ex := sessionSet ["work"; "mail"] in
  let st := {| allPaths := [plain "/p/play"];
               pathsByBaseName := {[ "play" := [plain "/p/play"] ]} |} in
  let entries : gmap string string :=
    {[ "play" := "/p/play"; "TMUX/mail" := "mail" ]} in
  nameEntries "work" ex st ∅ !! "work" = None
  ∧ entries !! (Config.TmuxSessionPrefix cfg +:+ "work")
    = nameEntries "work" ex st ∅ !! (Config.TmuxSessionPrefix cfg +:+ "work")
  ∧ (∀ k, entries !! k = Some "work" → nameEntries "work" ex st ∅ !! k = Some "work")
  ∧ (∀ v, entries !! "work" = Some v
          ↔ v ∈ ["work"; "mail"] ∧ v ≠ "work"
            ∧ Config.TmuxSessionPrefix cfg +:+ v = "work").
Proof.
  intros resolve cfg ex st entries.
  apply (current_session_is_no_key resolve (subDirsFrom []) cfg ex
           ["work"; "mail"] "work" 0 st entries).
  - by vm_compute.
  - by vm_compute.
Defined.

Lemma ignored_path_is_no_value_witness :
  let resolve := resolveAmong ["/proj"; "/proj/old"; "/proj/new"] in
  let scan := subDirsFrom [("/proj", ["/proj/old"; "/proj/new"])] in
  let cfg := mkCfg [scanRoot "/proj"] ["/proj/old"] ["/proj/old"] in
  let ex := sessionSet ["mail"] in
  let st := {| allPaths := [plain "/proj/new"];
               pathsByBaseName := {[ "new" := [plain "/proj/new"] ]} |} in
  let entries : gmap string string :=
    {[ "new" := "/proj/new"; "TMUX/mail" := "mail" ]} in
  (∀ info, info ∈ allPaths st → PathInfo.Path info ≠ "/proj/old")
  ∧ (∀ k, nameEntries "" ex st ∅ !! k ≠ Some "/proj/old")
  ∧ (∀ k, entries !! k = Some "/proj/old" →
          "/proj/old" ∈ ["mail"] ∧ "/proj/old" ≠ ""
          ∧ k = Config.TmuxSessionPrefix cfg +:+ "/proj/old").
Proof.
  intros resolve scan cfg ex st entries.
  apply (ignored_path_is_no_value resolve scan cfg "/proj/old" "/proj/old" ex
           ["mail"] "" 0 st entries).
  - simpl. by left.
  - reflexivity.
  - by vm_compute.
  - by vm_compute.
Defined.


Lemma membership_checked_only_when_picked_witness :
  let resolve := resolveAmong ["/p/a"] in
  let cfg := mkCfg [] ["/p/a"] [] in
  let pick : list string → string * option string := λ _, ("TMUX/ghost", None) in
  let create : Session.t → option string := λ _, None in
  run resolve (subDirsFrom []) cfg pick create keysOf ∅ [] "" 0 []
  = Return None (Some (nameMustMatch "TMUX/ghost"))
  ∧ run resolve (subDirsFrom []) cfg pick create keysOf ∅ [] "" 0 ["TMUX/ghost"]
    = Return (Some {| Session.Name := "ghost"; Session.Path := "" |}) None.
Proof.
  intros resolve cfg pick create.
  destruct (membership_checked_only_when_picked resolve (subDirsFrom []) cfg
              pick create keysOf ∅ [] "" 0 {[ "a" := "/p/a" ]} "TMUX/ghost")
    as (Hpicked & Hpositional & _).
  - by vm_compute.
  - by vm_compute.
  - done.
  - split; [by apply Hpicked|by apply Hpositional].
Defined.
